(** * Ticket relay: store, lifecycle engine and relay router

    A shallow embedding of [persistence.py], [ticket_manager.py] and the
    admin-side relay of [handlers.py], with the properties of the ticket
    lifecycle stated and proved over it.

    Modelling conventions.
    - A Python [str] is a list of Unicode code points ([str]); [len] is the
      length of that list.
    - SQL [INTEGER]/[BIGINT] values and Python [int]s are [Z]; the range of the
      backend's integer columns is outside the model.
    - A timestamp is a [Z]; the clock readings ([CURRENT_TIMESTAMP] of the
      backend, [datetime.datetime.now()]) are arguments of the operation that
      takes them.
    - The [tickets] table is a finite map from its primary key
      [ticket_number] to the remaining columns; the [UNIQUE] constraint on
      [channel_id] is checked by the statements that write that column.
    - The [status] column carries [CHECK(status IN ('open','closed',
      'resolved'))], so it is an enumeration; a status passed by a caller is
      a [str] compared with the stored value's name.
    - Every [with get_db_connection()] block of the source holds a single
      writing statement, so commit/rollback is: the statement happened or it
      did not.  The exceptions of the store are its constraint violations;
      a backend that cannot be reached is outside the model.
    - The transport is an environment: the answer it gives to each call is
      an argument of the function that makes the call.
    - The two backends run the same statements; where the code around them
      differs ([close_ticket_channel] builds its dictionary from a plain
      cursor's row), [db_type] selects the branch. *)

From stdpp Require Import gmap list sorting strings pretty.
From Stdlib Require Import ZArith Lia.

Local Open Scope Z_scope.

(** ** Strings *)

(** A character is its code point. *)
Abbreviation char := N (only parsing).
Abbreviation str := (list N) (only parsing).

Definition of_string (s : string) : str :=
  (fun a => Ascii.N_of_ascii a) <$> String.list_ascii_of_string s.

(** ** Exceptions *)

Inductive exn : Type :=
  | IntegrityError
  | TelegramError (message : str)
  | Exception.

Inductive res (A : Type) : Type :=
  | Ok (a : A)
  | Raise (e : exn).
Arguments Ok {A} a.
Arguments Raise {A} e.

(** ** config.py *)

(** [Config.DB_TYPE], validated to be one of the two. *)
Inductive db_type_t : Type := LOCAL | POSTGRES.

(** ** persistence.py *)

Inductive status_t : Type := Open | Closed | Resolved.

#[global] Instance status_eq_dec : EqDecision status_t.
Proof. solve_decision. Defined.

Definition status_name (st : status_t) : str :=
  match st with
  | Open => of_string "open"
  | Closed => of_string "closed"
  | Resolved => of_string "resolved"
  end.

(** The columns of a [tickets] row other than the primary key. *)
Record row : Type := Row {
  r_user_id : Z;
  r_username : option str;
  r_channel_id : Z;
  r_status : status_t;
  r_created_at : Z;
  r_closed_at : option Z
}.

(** The dictionary the lookups build from a selected row. *)
Record ticket : Type := Ticket {
  ticket_number : Z;
  user_id : Z;
  username : option str;
  channel_id : Z;
  status : status_t;
  created_at : Z;
  closed_at : option Z
}.

Definition to_ticket (n : Z) (r : row) : ticket :=
  Ticket n (r_user_id r) (r_username r) (r_channel_id r) (r_status r)
         (r_created_at r) (r_closed_at r).

(** The database: the single [counter] row and the [tickets] table. *)
Record store : Type := Store {
  counter : Z;
  tickets : gmap Z row
}.

(** [init_database] on a fresh file: counter 0, no tickets. *)
Definition init_database : store := Store 0 ∅.

(** [SELECT ... FROM tickets]: every row as a dictionary. *)
Definition select_all (s : store) : list ticket :=
  (fun kr => to_ticket kr.1 kr.2) <$> map_to_list (tickets s).

(** [UPDATE counter SET value = value + 1], then [SELECT value]. *)
Definition get_next_ticket_number (s : store) : store * Z :=
  let s' := Store (counter s + 1) (tickets s) in
  (s', counter s').

(** Some row other than [n] already holds channel [c]. *)
Definition channel_taken (n c : Z) (m : gmap Z row) : Prop :=
  map_Exists (fun k r => k ≠ n ∧ r_channel_id r = c) m.

#[global] Instance channel_taken_dec n c m : Decision (channel_taken n c m).
Proof. unfold channel_taken. apply _. Defined.

(** [INSERT INTO tickets (ticket_number, user_id, username, channel_id,
    status) VALUES (?, ?, ?, ?, 'open')]; [created_at] defaults to the
    backend's clock [now], [closed_at] to [NULL].  The counter was committed
    by [get_next_ticket_number] in a connection of its own, so a failing
    insert leaves it incremented. *)
Definition create_ticket (now uid : Z) (uname : option str) (chan : Z)
    (s : store) : store * res Z :=
  let (s1, n) := get_next_ticket_number s in
  if decide (is_Some (tickets s1 !! n) ∨ channel_taken n chan (tickets s1))
  then (s1, Raise IntegrityError)
  else (Store (counter s1)
              (<[n := Row uid uname chan Open now None]> (tickets s1)), Ok n).

(** [WHERE channel_id = ?], [fetchone]. *)
Definition get_ticket_by_channel (chan : Z) (s : store) : option ticket :=
  head (filter (fun t => channel_id t = chan) (select_all s)).

(** [ORDER BY created_at DESC]. *)
Definition created_desc (a b : ticket) : Prop := created_at b ≤ created_at a.

#[global] Instance created_desc_dec a b : Decision (created_desc a b).
Proof. unfold created_desc. apply _. Defined.

(** [WHERE user_id = ? AND status = ? ORDER BY created_at DESC LIMIT 1],
    [fetchone].  Which of several rows with the same [created_at] comes
    first is the backend's choice; here it is the sort's. *)
Definition get_ticket_by_user (uid : Z) (st : str) (s : store)
    : option ticket :=
  head (merge_sort created_desc
          (filter (fun t => user_id t = uid ∧ status_name (status t) = st)
                  (select_all s))).

(** [WHERE ticket_number = ?], [fetchone]. *)
Definition get_ticket_by_number (n : Z) (s : store) : option ticket :=
  to_ticket n <$> tickets s !! n.

(** [cursor.rowcount] of an [UPDATE ... WHERE ticket_number = n AND cond]. *)
Definition rowcount (cond : row -> bool) (n : Z) (s : store) : Z :=
  match tickets s !! n with
  | Some r => if cond r then 1 else 0
  | None => 0
  end.

(** [UPDATE tickets SET ... WHERE ticket_number = n AND cond]. *)
Definition update_where (cond : row -> bool) (set : row -> row) (n : Z)
    (s : store) : store :=
  Store (counter s)
        (alter (fun r => if cond r then set r else r) n (tickets s)).

Definition set_status (st : status_t) (cl : option Z) (r : row) : row :=
  Row (r_user_id r) (r_username r) (r_channel_id r) st (r_created_at r) cl.

(** [SET status = 'closed', closed_at = now WHERE ticket_number = n]. *)
Definition close_ticket (now n : Z) (s : store) : store * bool :=
  (update_where (fun _ => true) (set_status Closed (Some now)) n s,
   bool_decide (rowcount (fun _ => true) n s > 0)).

Definition is_closed (r : row) : bool := bool_decide (r_status r = Closed).

(** [SET status = 'open', closed_at = NULL
     WHERE ticket_number = n AND status = 'closed']. *)
Definition reopen_ticket (n : Z) (s : store) : store * bool :=
  (update_where is_closed (set_status Open None) n s,
   bool_decide (rowcount is_closed n s > 0)).

(** [SET status = 'resolved', closed_at = now WHERE ticket_number = n]. *)
Definition resolve_ticket (now n : Z) (s : store) : store * bool :=
  (update_where (fun _ => true) (set_status Resolved (Some now)) n s,
   bool_decide (rowcount (fun _ => true) n s > 0)).

(** ** ticket_manager.py *)

(** What the code asks of the transport. *)
Inductive call : Type :=
  | create_forum_topic (chat_id : Z) (name : str)
  | edit_forum_topic (chat_id message_thread_id : Z) (name : str)
  | send_message (chat_id : Z) (text : str) (message_thread_id : option Z)
                 (parse_mode : option str)
  | reply_text (text : str).

(** The database together with the transport calls made so far. *)
Record world : Type := World {
  db : store;
  calls : list call
}.

(** Code that threads the world and may raise. *)
Definition M (A : Type) : Type := world -> world * res A.

Definition ret {A} (a : A) : M A := fun w => (w, Ok a).

Definition bind {A B} (m : M A) (k : A -> M B) : M B :=
  fun w => match m w with
           | (w', Ok a) => k a w'
           | (w', Raise e) => (w', Raise e)
           end.

Notation "x <- m ;; k" := (bind m (fun x => k))
  (at level 100, m at next level, right associativity).

(** A read of the database. *)
Definition query {A} (f : store -> A) : M A :=
  fun w => (w, Ok (f (db w))).

(** A statement that may violate a constraint. *)
Definition execute {A} (f : store -> store * res A) : M A :=
  fun w => let (s, r) := f (db w) in (World s (calls w), r).

(** A statement that cannot. *)
Definition execute_ok {A} (f : store -> store * A) : M A :=
  fun w => let (s, a) := f (db w) in (World s (calls w), Ok a).

(** [await self.bot.<c>], answered by the transport with [answer]. *)
Definition await {A} (c : call) (answer : res A) : M A :=
  fun w => (World (db w) (calls w ++ [c]), answer).

(** [try: m  except TelegramError as e: h e]. *)
Definition except_TelegramError {A} (m : M A) (h : str -> M A) : M A :=
  fun w => match m w with
           | (w', Raise (TelegramError msg)) => h msg w'
           | other => other
           end.

(** [try: m  except Exception: h]. *)
Definition except_Exception {A} (m : M A) (h : M A) : M A :=
  fun w => match m w with
           | (w', Raise _) => h w'
           | other => other
           end.

(** Decimal rendering of an [int] in an f-string. *)
Definition str_of_Z (z : Z) : str := of_string (pretty z).

(** Truth value of an optional string: [None] and [''] are false. *)
Definition truthy (o : option str) : bool :=
  match o with
  | Some (_ :: _) => true
  | _ => false
  end.

Definition or_empty (o : option str) : str := default [] o.

(** [name.replace(char, '')]. *)
Definition replace (c : char) (name : str) : str :=
  filter (fun x => x ≠ c) name.

(** The characters [<], [>], [&], the double quote and the single quote. *)
Definition invalid_chars : list char := [60; 62; 38; 34; 39]%N.

Definition _sanitize_channel_name (name : str) : str :=
  let name := foldl (fun name c => replace c name) name invalid_chars in
  if decide (128 < length name)%nat
  then take 125 name ++ of_string "..."
  else name.

(** The dictionary [create_ticket_channel] composes for a new ticket. *)
Record ticket_info : Type := TicketInfo {
  ti_ticket_number : Z;
  ti_user_id : Z;
  ti_username : option str;
  ti_channel_id : Z;
  ti_status : str
}.

Definition set_channel (c : Z) (r : row) : row :=
  Row (r_user_id r) (r_username r) c (r_status r) (r_created_at r)
      (r_closed_at r).

(** [UPDATE tickets SET channel_id = c WHERE ticket_number = n]. *)
Definition _update_ticket_channel (n c : Z) (s : store) : store * res unit :=
  if decide (is_Some (tickets s !! n) ∧ channel_taken n c (tickets s))
  then (s, Raise IntegrityError)
  else (update_where (fun _ => true) (set_channel c) n s, Ok tt).

Section TicketManager.
(** [self.admin_group_id]. *)
Variable admin_group_id : Z.

(** The body of the outer [try] of [create_ticket_channel].  [now] is the
    backend's clock at the insert, [topic] and [delivery] are the
    transport's answers to [create_forum_topic] and [send_message]. *)
Definition create_ticket_channel_try (now : Z) (topic : res Z)
    (delivery : res unit) (uid : Z) (uname : option str)
    (first_message : str) : M (ticket + ticket_info) :=
  existing_ticket <- query (get_ticket_by_user uid (of_string "open")) ;;
  match existing_ticket with
  | Some t => ret (inl t)
  | None =>
    n <- execute (create_ticket now uid uname 0) ;;
    let channel_name :=
      if truthy uname
      then of_string "Ticket #" ++ str_of_Z n ++ of_string " - @"
           ++ or_empty uname
      else of_string "Ticket #" ++ str_of_Z n ++ of_string " - "
           ++ str_of_Z uid in
    let channel_name := _sanitize_channel_name channel_name in
    chan <- except_TelegramError
              (await (create_forum_topic admin_group_id channel_name) topic)
              (fun _ => ret admin_group_id) ;;
    _ <- execute (_update_ticket_channel n chan) ;;
    _ <- except_TelegramError
           (let message_text :=
              of_string "@"
              ++ (if truthy uname then or_empty uname else str_of_Z uid)
              ++ of_string ": " ++ first_message in
            if decide (chan ≠ admin_group_id)
            then await (send_message admin_group_id message_text (Some chan)
                          None) delivery
            else await (send_message admin_group_id message_text None None)
                       delivery)
           (fun _ => ret tt) ;;
    ret (inr (TicketInfo n uid uname chan (of_string "open")))
  end.

(** [except Exception: return None] around the whole body. *)
Definition create_ticket_channel (now : Z) (topic : res Z)
    (delivery : res unit) (uid : Z) (uname : option str)
    (first_message : str) (w : world)
    : world * option (ticket + ticket_info) :=
  match create_ticket_channel_try now topic delivery uid uname
          first_message w with
  | (w', Ok info) => (w', Some info)
  | (w', Raise _) => (w', None)
  end.

Definition get_ticket_info (chan : Z) (s : store) : option ticket :=
  get_ticket_by_channel chan s.

Definition get_user_ticket (uid : Z) (s : store) : option ticket :=
  get_ticket_by_user uid (of_string "open") s.

(** The [SELECT] at the head of [close_ticket_channel], through a cursor
    without a dictionary factory.  On SQLite the dictionary is built key by
    key; on PostgreSQL [dict(row)] is applied to the row, a tuple of five
    scalars, which raises [TypeError]. *)
Definition load_ticket (db_type : db_type_t) (n : Z) : M (option ticket) :=
  fun w =>
    match get_ticket_by_number n (db w), db_type with
    | Some _, POSTGRES => (w, Raise Exception)
    | row, _ => (w, Ok row)
    end.

(** [now] is [datetime.datetime.now()] inside [close_ticket], [rename] the
    transport's answer to [edit_forum_topic]. *)
Definition close_ticket_channel (db_type : db_type_t) (now : Z)
    (rename : res unit) (n : Z) : M bool :=
  ticket <- load_ticket db_type n ;;
  match ticket with
  | None => ret false
  | Some t =>
    success <- execute_ok (close_ticket now n) ;;
    _ <- (if success : bool
          then except_Exception
                 (let channel_name :=
                    if truthy (username t)
                    then of_string "CLOSED #" ++ str_of_Z n
                         ++ of_string " - @" ++ or_empty (username t)
                    else of_string "CLOSED #" ++ str_of_Z n
                         ++ of_string " - " ++ str_of_Z (user_id t) in
                  let channel_name := _sanitize_channel_name channel_name in
                  except_TelegramError
                    (await (edit_forum_topic admin_group_id (channel_id t)
                              channel_name) rename)
                    (fun _ => ret tt))
                 (ret tt)
          else ret tt) ;;
    ret success
  end.
End TicketManager.

(** ** handlers.py *)

(** The parts of [update.message] the admin-side handler reads; [chat] is
    the chat's [id]. *)
Record message : Type := Message {
  chat : option Z;
  text : option str;
  message_thread_id : option Z
}.

(** [str.isspace] on one character. *)
Definition is_space (c : char) : bool :=
  ((9 <=? c) && (c <=? 13) || (28 <=? c) && (c <=? 32)
   || (c =? 133) || (c =? 160) || (c =? 5760)
   || (8192 <=? c) && (c <=? 8202) || (c =? 8232) || (c =? 8233)
   || (c =? 8239) || (c =? 8287) || (c =? 12288))%N.

Fixpoint lstrip (s : str) : str :=
  match s with
  | c :: s' => if is_space c then lstrip s' else s
  | [] => []
  end.

(** [s.strip()]. *)
Definition strip (s : str) : str := reverse (lstrip (reverse (lstrip s))).

(** [s.startswith(p)]. *)
Fixpoint startswith (p s : str) : bool :=
  match p, s with
  | [], _ => true
  | a :: p', b :: s' => bool_decide (a = b) && startswith p' s'
  | _ :: _, [] => false
  end.

(** [p in s]. *)
Fixpoint contains (p s : str) : bool :=
  startswith p s ||
  match s with
  | [] => false
  | _ :: s' => contains p s'
  end.

(** Truth value of a string. *)
Definition nonempty (s : str) : bool :=
  match s with
  | [] => false
  | _ :: _ => true
  end.

(** The warning sign followed by its variation selector. *)
Definition warning : str := [9888; 65039]%N.

(** [message_thread_id] when the message has a (non-zero) one, else the
    chat's id. *)
Definition channel_of (thread : option Z) (chat_id : Z) : Z :=
  match thread with
  | Some thread => if decide (thread = 0) then chat_id else thread
  | None => chat_id
  end.

Section Handlers.
(** [str.lower]. *)
Variable lower : str -> str.

(** The diagnostic chosen from the text of the [TelegramError]. *)
Definition error_msg (e : str) : str :=
  if contains (of_string "blocked") (lower e)
     || contains (of_string "bot was blocked") (lower e)
  then warning
       ++ of_string " Could not deliver message. User has blocked the bot."
  else if contains (of_string "chat not found") (lower e)
          || contains (of_string "user not found") (lower e)
  then warning
       ++ of_string " Could not deliver message. User hasn't started the bot yet."
  else warning ++ of_string " Could not deliver message to user. Error: "
       ++ take 50 e.

(** [delivery] and [reply] are the transport's answers to [send_message]
    and to [reply_text]. *)
Definition handle_admin_message (delivery reply : res unit)
    (update_message : option message) : M unit :=
  match update_message with
  | None => ret tt
  | Some m =>
    match chat m with
    | None => ret tt
    | Some chat_id =>
      let message_text := default [] (text m) in
      if startswith (of_string "/") message_text then ret tt
      else if negb (nonempty message_text)
              || negb (nonempty (strip message_text)) then ret tt
      else
        let channel_id := channel_of (message_thread_id m) chat_id in
        ticket <- query (get_ticket_info channel_id) ;;
        match ticket with
        | None => ret tt
        | Some t =>
          if decide (status t = Closed ∨ status t = Resolved) then ret tt
          else
            except_TelegramError
              (await (send_message (user_id t) message_text None
                        (Some (of_string "Markdown"))) delivery)
              (fun e =>
                 except_Exception (await (reply_text (error_msg e)) reply)
                                  (ret tt))
        end
    end
  end.
End Handlers.

(** ** Sequences of store operations *)

Inductive op : Type :=
  | OpNext
  | OpCreate (now uid : Z) (uname : option str) (chan : Z)
  | OpUpdateChannel (n chan : Z)
  | OpClose (now n : Z)
  | OpReopen (n : Z)
  | OpResolve (now n : Z).

Definition step (o : op) (s : store) : store :=
  match o with
  | OpNext => (get_next_ticket_number s).1
  | OpCreate now uid uname chan => (create_ticket now uid uname chan s).1
  | OpUpdateChannel n chan => (_update_ticket_channel n chan s).1
  | OpClose now n => (close_ticket now n s).1
  | OpReopen n => (reopen_ticket n s).1
  | OpResolve now n => (resolve_ticket now n s).1
  end.

(** The ticket number an operation hands to its caller, if any. *)
Definition issued (o : op) (s : store) : list Z :=
  match o with
  | OpNext => [(get_next_ticket_number s).2]
  | OpCreate now uid uname chan =>
    match (create_ticket now uid uname chan s).2 with
    | Ok n => [n]
    | Raise _ => []
    end
  | _ => []
  end.

Fixpoint run (ops : list op) (s : store) : store :=
  match ops with
  | [] => s
  | o :: ops' => run ops' (step o s)
  end.

Fixpoint issued_by (ops : list op) (s : store) : list Z :=
  match ops with
  | [] => []
  | o :: ops' => issued o s ++ issued_by ops' (step o s)
  end.

(** [k] consecutive calls of [get_next_ticket_number]. *)
Definition calls_of_next (k : nat) : list op := replicate k OpNext.

(** ** Vocabulary of the properties *)

(** The edges of the lifecycle: open to closed or resolved, closed to open
    or resolved. *)
Definition edge (a b : status_t) : Prop :=
  match a, b with
  | Open, Closed | Open, Resolved | Closed, Open | Closed, Resolved => True
  | _, _ => False
  end.

(** [closed_at] is set exactly on closed and resolved tickets. *)
Definition coupled (t : ticket) : Prop :=
  is_Some (closed_at t) ↔ (status t = Closed ∨ status t = Resolved).

Definition store_coupled (s : store) : Prop :=
  Forall coupled (select_all s).

(** The same on a stored row. *)
Definition row_coupled (r : row) : Prop :=
  is_Some (r_closed_at r) ↔ (r_status r = Closed ∨ r_status r = Resolved).

#[global] Instance coupled_dec t : Decision (coupled t).
Proof. unfold coupled. apply _. Defined.

#[global] Instance store_coupled_dec s : Decision (store_coupled s).
Proof. unfold store_coupled. apply _. Defined.

(** The keys both shapes of the returned dictionary have. *)
Definition info_ticket_number (i : ticket + ticket_info) : Z :=
  match i with inl t => ticket_number t | inr ti => ti_ticket_number ti end.

Definition info_user_id (i : ticket + ticket_info) : Z :=
  match i with inl t => user_id t | inr ti => ti_user_id ti end.

Definition info_channel_id (i : ticket + ticket_info) : Z :=
  match i with inl t => channel_id t | inr ti => ti_channel_id ti end.

Definition info_status (i : ticket + ticket_info) : str :=
  match i with inl t => status_name (status t) | inr ti => ti_status ti end.

(** An answer of the transport that an [except TelegramError] lets through:
    an exception of another class. *)
Definition fatal {A} (r : res A) : Prop :=
  match r with
  | Ok _ | Raise (TelegramError _) => False
  | Raise _ => True
  end.

#[global] Instance fatal_dec {A} (r : res A) : Decision (fatal r).
Proof. destruct r as [a|[]]; simpl; apply _. Defined.

(** The channel a new ticket gets: the created topic, or the admin group
    itself when topic creation failed. *)
Definition channel_for (admin_group_id : Z) (topic : res Z) : Z :=
  match topic with
  | Ok thread => thread
  | Raise _ => admin_group_id
  end.

(** ** Scenarios *)

Definition admin_group : Z := -1001234.

Definition not_a_forum : res Z :=
  Raise (TelegramError (of_string "Bad Request: the chat is not a forum")).

(** Ticket 1 of user 7, on topic 41, created at 10 and resolved at 20. *)
Definition scenario_resolved : store :=
  run [OpCreate 10 7 (Some (of_string "bob")) 0; OpUpdateChannel 1 41;
       OpResolve 20 1] init_database.

(** User 7 opened ticket 1 in an admin group without forum topics: the
    ticket's channel is the group itself. *)
Definition scenario_fallback : world :=
  (create_ticket_channel admin_group 5 not_a_forum (Ok tt) 7
     (Some (of_string "bob")) (of_string "help me") (World init_database [])).1.

(** ** Invariants of the table *)

(** No two tickets share a channel: the [UNIQUE] constraint. *)
Definition unique_channels (s : store) : Prop :=
  NoDup (channel_id <$> select_all s).

(** No ticket number is above the counter. *)
Definition numbers_bounded (s : store) : Prop :=
  map_Forall (fun n _ => n ≤ counter s) (tickets s).

Definition is_open (t : ticket) : Prop := status t = Open.

(** No user has two open tickets. *)
Definition one_open_per_user (s : store) : Prop :=
  NoDup (user_id <$> filter is_open (select_all s)).

#[global] Instance unique_channels_dec s : Decision (unique_channels s).
Proof. unfold unique_channels. apply _. Defined.

#[global] Instance numbers_bounded_dec s : Decision (numbers_bounded s).
Proof. unfold numbers_bounded. apply _. Defined.

#[global] Instance is_open_dec t : Decision (is_open t).
Proof. unfold is_open. apply _. Defined.

#[global] Instance one_open_per_user_dec s : Decision (one_open_per_user s).
Proof. unfold one_open_per_user. apply _. Defined.

(** The operations that neither insert a row directly nor reopen one. *)
Definition keeps_one_open (o : op) : bool :=
  match o with
  | OpCreate _ _ _ _ | OpReopen _ => false
  | _ => true
  end.

(** User 7 with ticket 1 closed at 20 and ticket 2 open. *)
Definition scenario_closed_and_open : store :=
  run [OpCreate 10 7 (Some (of_string "bob")) 0; OpUpdateChannel 1 41;
       OpClose 20 1; OpCreate 30 7 (Some (of_string "bob")) 0;
       OpUpdateChannel 2 42] init_database.

(** ** handlers.py: the user side, the admin's close and the buttons *)

(** An [InlineKeyboardButton]: its label and its [callback_data]. *)
Record button : Type := Button {
  b_text : str;
  b_callback_data : str
}.

(** What a handler asks of the transport: a call of the kind the ticket
    manager makes, or one with a keyboard, through the message or through
    the callback query. *)
Inductive event : Type :=
  | Bot (c : call)
  | bot_send_message (chat_id : Z) (text : str)
                     (reply_markup : list (list button))
                     (parse_mode : option str)
  | message_reply_text (text : str)
                       (reply_markup : option (list (list button)))
                       (parse_mode : option str)
  | query_answer
  | query_edit_message_text (text : str) (parse_mode : option str).

(** The database, the transport calls made so far, and the value of
    [context.user_data['pending_message']] of every user that has one. *)
Record session : Type := Session {
  s_db : store;
  s_events : list event;
  s_pending : gmap Z str
}.

Definition H (A : Type) : Type := session -> session * res A.

Definition hret {A} (a : A) : H A := fun σ => (σ, Ok a).

Definition hbind {A B} (m : H A) (k : A -> H B) : H B :=
  fun σ => match m σ with
           | (σ', Ok a) => k a σ'
           | (σ', Raise e) => (σ', Raise e)
           end.

Notation "x <~ m ;; k" := (hbind m (fun x => k))
  (at level 100, m at next level, right associativity).

(** A read of the database. *)
Definition read {A} (f : store -> A) : H A :=
  fun σ => (σ, Ok (f (s_db σ))).

(** A statement of the store layer. *)
Definition update_db {A} (f : store -> store * A) : H A :=
  fun σ => let (s, a) := f (s_db σ) in
           (Session s (s_events σ) (s_pending σ), Ok a).

(** A method of the ticket manager: it works on the database and its
    transport calls join the handler's. *)
Definition manager {A} (m : M A) : H A :=
  fun σ => let (w, r) := m (World (s_db σ) []) in
           (Session (db w) (s_events σ ++ (Bot <$> calls w)) (s_pending σ), r).

(** [await <e>], answered by the transport with [answer]. *)
Definition perform (e : event) (answer : res unit) : H unit :=
  fun σ => (Session (s_db σ) (s_events σ ++ [e]) (s_pending σ), answer).

(** [try: m  except TelegramError: h]. *)
Definition catch_TelegramError {A} (m : H A) (h : H A) : H A :=
  fun σ => match m σ with
           | (σ', Raise (TelegramError _)) => h σ'
           | other => other
           end.

(** [try: m  except Exception: h]. *)
Definition catch_Exception {A} (m : H A) (h : H A) : H A :=
  fun σ => match m σ with
           | (σ', Raise _) => h σ'
           | other => other
           end.

(** [context.user_data['pending_message'] = text]. *)
Definition set_pending (uid : Z) (text : str) : H unit :=
  fun σ => (Session (s_db σ) (s_events σ) (<[uid := text]> (s_pending σ)),
            Ok tt).

(** [context.user_data.get('pending_message', '')]. *)
Definition get_pending (uid : Z) : H str :=
  fun σ => (σ, Ok (default [] (s_pending σ !! uid))).

(** [context.user_data.pop('pending_message', None)]. *)
Definition pop_pending (uid : Z) : H unit :=
  fun σ => (Session (s_db σ) (s_events σ) (delete uid (s_pending σ)), Ok tt).

(** [update.message.from_user] and [query.from_user]. *)
Record user : Type := User {
  u_id : Z;
  u_username : option str
}.

(** The parts of a private message the user-side handlers read. *)
Record private_message : Type := PrivateMessage {
  pm_from_user : option user;
  pm_text : option str
}.

(** The parts of [update.callback_query] the handler reads. *)
Record callback_query : Type := CallbackQuery {
  cq_data : option str;
  cq_from_user : user
}.

Definition nl : str := [10]%N.
Definition ticket_sign : str := [127915]%N.
Definition waving_hand : str := [128075]%N.
Definition memo : str := [128221]%N.
Definition check_mark : str := [9989]%N.
Definition cross_mark : str := [10060]%N.
Definition arrows : str := [128260]%N.
Definition red_circle : str := [128308]%N.
Definition party : str := [127881]%N.
Definition bullet : str := [8226]%N.

Definition Markdown : option str := Some (of_string "Markdown").

Definition at_user (u : user) : str :=
  of_string "@"
  ++ (if truthy (u_username u) then or_empty (u_username u)
      else str_of_Z (u_id u)).

Fixpoint last_segment_from (acc s : str) : str :=
  match s with
  | [] => acc
  | c :: s' =>
    if (c =? 95)%N then last_segment_from [] s'
    else last_segment_from (acc ++ [c]) s'
  end.

(** [data.split("_")[-1]]. *)
Definition last_segment (s : str) : str := last_segment_from [] s.

Section Router.
(** [ticket_manager.admin_group_id] and [Config.DB_TYPE]. *)
Variable admin_group_id : Z.
Variable db_type : db_type_t.
(** [int] on a string: [None] stands for [ValueError]. *)
Variable int : str -> option Z.

(** [delivery] and [reply] are the transport's answers to [send_message]
    and to [reply_text]. *)
Definition handle_user_message (delivery reply : res unit)
    (update_message : option private_message) : H unit :=
  match update_message with
  | None => hret tt
  | Some m =>
    match pm_from_user m with
    | None => hret tt
    | Some user =>
      let message_text := default [] (pm_text m) in
      existing_ticket <~ read (get_user_ticket (u_id user)) ;;
      match existing_ticket with
      | Some t =>
        catch_TelegramError
          (let text := at_user user ++ of_string ": " ++ message_text in
           if decide (channel_id t ≠ admin_group_id)
           then perform (Bot (send_message admin_group_id text
                                (Some (channel_id t)) None)) delivery
           else perform (Bot (send_message admin_group_id text None None))
                        delivery)
          (perform
             (message_reply_text
                (of_string
                   "Sorry, I couldn't forward your message. Please try again.")
                None None) reply)
      | None =>
        _ <~ set_pending (u_id user) message_text ;;
        perform
          (message_reply_text
             (waving_hand
              ++ of_string " It seems like you don't have any ongoing tickets."
              ++ nl ++ nl ++ of_string "Would you like to create a new ticket?")
             (Some [[Button (memo ++ of_string " Create New Ticket")
                            (of_string "create_ticket")]])
             None) reply
      end
    end
  end.

(** [reply] is the transport's answer to [reply_text]. *)
Definition handle_user_close_command (reply : res unit)
    (update_message : option private_message) : H unit :=
  match update_message with
  | None => hret tt
  | Some m =>
    match pm_from_user m with
    | None => hret tt
    | Some user =>
      ticket <~ read (get_user_ticket (u_id user)) ;;
      match ticket with
      | None =>
        perform
          (message_reply_text
             (of_string "You don't have an open ticket to close." ++ nl ++ nl
              ++ of_string "Use /newticket to create one.")
             None None) reply
      | Some t =>
        let n := str_of_Z (ticket_number t) in
        perform
          (message_reply_text
             (of_string "Are you sure you want to close **" ++ ticket_sign
              ++ of_string " Ticket #" ++ n ++ of_string "**?" ++ nl ++ nl
              ++ bullet ++ of_string " **" ++ check_mark
              ++ of_string " Resolve**: Mark as resolved (issue fixed)" ++ nl
              ++ bullet ++ of_string " **" ++ cross_mark
              ++ of_string " Close**: Close the ticket" ++ nl ++ nl
              ++ of_string "Or click 'Cancel' to keep it open.")
             (Some [[Button (check_mark ++ of_string " Resolve")
                            (of_string "resolve_" ++ n);
                     Button (cross_mark ++ of_string " Close")
                            (of_string "user_close_" ++ n)];
                    [Button (of_string "Cancel") (of_string "cancel")]])
             Markdown) reply
      end
    end
  end.

(** [now] is the clock inside [close_ticket]; [rename], [notice] and
    [reply] are the transport's answers to [edit_forum_topic], to the
    [send_message] for the user and to [reply_text]. *)
Definition handle_close_command (now : Z) (rename notice reply : res unit)
    (update_message : option message) : H unit :=
  match update_message with
  | None => hret tt
  | Some m =>
    match chat m with
    | None => hret tt
    | Some chat_id =>
      let channel_id := channel_of (message_thread_id m) chat_id in
      ticket <~ read (get_ticket_info channel_id) ;;
      match ticket with
      | None =>
        perform (message_reply_text
                   (of_string "This is not a ticket channel.") None None)
                reply
      | Some t =>
        let n := str_of_Z (ticket_number t) in
        if decide (status t = Closed ∨ status t = Resolved)
        then perform
               (message_reply_text
                  (of_string "**" ++ ticket_sign ++ of_string " Ticket #" ++ n
                   ++ of_string "** is already closed/resolved.")
                  None Markdown) reply
        else
          success <~ manager (close_ticket_channel admin_group_id db_type now
                                rename (ticket_number t)) ;;
          if success : bool
          then
            _ <~ catch_TelegramError
                   (perform
                      (bot_send_message (user_id t)
                         (red_circle ++ of_string " **Ticket #" ++ n
                          ++ of_string " has been closed**" ++ nl ++ nl
                          ++ of_string
                               "If your issue isn't resolved, you can reopen it or mark it as resolved.")
                         [[Button (arrows ++ of_string " Reopen")
                                  (of_string "reopen_" ++ n);
                           Button (check_mark ++ of_string " Resolved")
                                  (of_string "resolve_" ++ n)]]
                         Markdown) notice)
                   (hret tt) ;;
            perform
              (message_reply_text
                 (check_mark ++ of_string " **Ticket #" ++ n
                  ++ of_string "** has been closed.")
                 None Markdown) reply
          else
            perform
              (message_reply_text
                 (of_string "Failed to close ticket. Please try again.")
                 None None) reply
      end
    end
  end.

(** The rename after a reopen or a resolve, with the sanitizing written
    out in the handler; every exception is logged and dropped. *)
Definition rename_topic (label : str) (n : Z) (t : ticket)
    (rename : res unit) : H unit :=
  catch_Exception
    (let channel_name :=
       if truthy (username t)
       then label ++ str_of_Z n ++ of_string " - @" ++ or_empty (username t)
       else label ++ str_of_Z n ++ of_string " - " ++ str_of_Z (user_id t) in
     let channel_name :=
       foldl (fun name c => replace c name) channel_name invalid_chars in
     let channel_name :=
       if decide (128 < length channel_name)%nat
       then take 125 channel_name ++ of_string "..."
       else channel_name in
     catch_TelegramError
       (perform (Bot (edit_forum_topic admin_group_id (channel_id t)
                        channel_name)) rename)
       (hret tt))
    (hret tt).

(** [now] is the clock of the statement the button leads to; [answered],
    [topic], [delivery], [rename] and [edited] are the transport's answers
    to [query.answer], [create_forum_topic], the [send_message] of the first
    message, [edit_forum_topic] and [query.edit_message_text].  The
    statements behind [reopen_ticket] and [resolve_ticket] raise nothing in
    this model, so the [except Exception] around them is never entered. *)
Definition handle_callback_query (now : Z) (answered : res unit)
    (topic : res Z) (delivery rename edited : res unit)
    (update_callback_query : option callback_query) : H unit :=
  match update_callback_query with
  | None => hret tt
  | Some query =>
    _ <~ perform query_answer answered ;;
    match cq_data query with
    | None => fun σ => (σ, Raise Exception)
    | Some data =>
      if decide (data = of_string "create_ticket") then
        let user := cq_from_user query in
        existing_ticket <~ read (get_user_ticket (u_id user)) ;;
        match existing_ticket with
        | Some t =>
          perform
            (query_edit_message_text
               (of_string "You already have an open ticket:" ++ nl
                ++ ticket_sign ++ of_string " **Ticket #"
                ++ str_of_Z (ticket_number t) ++ of_string "**" ++ nl ++ nl
                ++ of_string
                     "Please close your current ticket first using /close, or continue the conversation.")
               Markdown) edited
        | None =>
          pending_message <~ get_pending (u_id user) ;;
          if nonempty pending_message then
            ticket_info <~
              manager (fun w =>
                         let (w', info) :=
                           create_ticket_channel admin_group_id now topic
                             delivery (u_id user) (u_username user)
                             pending_message w in
                         (w', Ok info)) ;;
            _ <~ pop_pending (u_id user) ;;
            match ticket_info with
            | Some info =>
              perform
                (query_edit_message_text
                   (ticket_sign ++ of_string " **Ticket #"
                    ++ str_of_Z (info_ticket_number info)
                    ++ of_string " created**" ++ nl ++ nl
                    ++ of_string
                         "Thank you! Someone will assist you shortly. You can continue the conversation here."
                    ++ nl ++ nl
                    ++ of_string
                         "Please tell us your problem in as much detail as possible, including any steps you've taken so far or relevant background. The more information you provide, the quicker we can help you!"
                    ++ nl ++ nl
                    ++ of_string
                         "Use /status to check your ticket status anytime.")
                   Markdown) edited
            | None =>
              perform
                (query_edit_message_text
                   (of_string
                      "Sorry, I couldn't create a ticket. Please try again later.")
                   None) edited
            end
          else
            perform
              (query_edit_message_text
                 (of_string "Great! I'll create a ticket for you." ++ nl ++ nl
                  ++ of_string
                       "Please describe your issue or question, and I'll create the ticket right away.")
                 None) edited
        end
      else if startswith (of_string "user_close_") data then
        match int (last_segment data) with
        | None =>
          perform (query_edit_message_text
                     (of_string "Invalid ticket number.") None) edited
        | Some n =>
          closed <~
            catch_Exception
              (success <~ manager (close_ticket_channel admin_group_id db_type
                                     now rename n) ;;
               hret (Some success))
              (_ <~ perform
                      (query_edit_message_text
                         (of_string "Failed to close ticket. Please try again.")
                         None) edited ;;
               hret None) ;;
          match closed with
          | None => hret tt
          | Some true =>
            perform
              (query_edit_message_text
                 (check_mark ++ of_string " **Ticket #" ++ str_of_Z n
                  ++ of_string " has been closed**" ++ nl ++ nl
                  ++ of_string
                       "Use /newticket to create a new ticket if needed.")
                 Markdown) edited
          | Some false =>
            perform
              (query_edit_message_text
                 (of_string
                    "Failed to close ticket. It may not exist or is already closed.")
                 None) edited
          end
        end
      else if startswith (of_string "reopen_") data then
        match int (last_segment data) with
        | None =>
          perform (query_edit_message_text
                     (of_string "Invalid ticket number.") None) edited
        | Some n =>
          success <~ update_db (reopen_ticket n) ;;
          if success : bool then
            ticket <~ read (get_ticket_by_number n) ;;
            _ <~ match ticket with
                 | Some t => rename_topic (of_string "Ticket #") n t rename
                 | None => hret tt
                 end ;;
            perform
              (query_edit_message_text
                 (arrows ++ of_string " **Ticket #" ++ str_of_Z n
                  ++ of_string " has been reopened**" ++ nl ++ nl
                  ++ of_string "You can continue the conversation now.")
                 Markdown) edited
          else
            perform
              (query_edit_message_text
                 (of_string
                    "Failed to reopen ticket. It may already be open or doesn't exist.")
                 None) edited
        end
      else if startswith (of_string "resolve_") data then
        match int (last_segment data) with
        | None =>
          perform (query_edit_message_text
                     (of_string "Invalid ticket number.") None) edited
        | Some n =>
          success <~ update_db (resolve_ticket now n) ;;
          if success : bool then
            ticket <~ read (get_ticket_by_number n) ;;
            _ <~ match ticket with
                 | Some t => rename_topic (of_string "RESOLVED #") n t rename
                 | None => hret tt
                 end ;;
            perform
              (query_edit_message_text
                 (check_mark ++ of_string " **Ticket #" ++ str_of_Z n
                  ++ of_string " has been resolved**" ++ nl ++ nl
                  ++ of_string "Thank you for using our support service! "
                  ++ party)
                 Markdown) edited
          else
            perform
              (query_edit_message_text
                 (of_string
                    "Failed to resolve ticket. It may not exist or is already resolved.")
                 None) edited
        end
      else if decide (data = of_string "cancel") then
        perform (query_edit_message_text (of_string "Operation cancelled.")
                   None) edited
      else hret tt
    end
  end.
End Router.

(** The decimal numerals among the strings [int] accepts: an optional
    minus sign and ASCII digits. *)
Fixpoint digits_value (acc : Z) (s : str) : option Z :=
  match s with
  | [] => Some acc
  | c :: s' =>
    if ((48 <=? c) && (c <=? 57))%N
    then digits_value (10 * acc + Z.of_N (c - 48)) s'
    else None
  end.

Definition int_decimal (s : str) : option Z :=
  match s with
  | [] => None
  | 45%N :: (_ :: _) as s' => Z.opp <$> digits_value 0 s'
  | 45%N :: [] => None
  | _ => digits_value 0 s
  end.

(** Ticket 1 of user 7, open, on topic 41. *)
Definition scenario_open : store :=
  run [OpCreate 10 7 (Some (of_string "bob")) 0; OpUpdateChannel 1 41]
      init_database.

Definition bob : user := User 7 (Some (of_string "bob")).

(** A minus sign or an ASCII digit. *)
Definition decimal_char (c : char) : Prop := (c = 45 ∨ 48 ≤ c ≤ 57)%N.

(** A handler step whose effect on the database is that of some sequence
    of store operations. *)
Definition writes_as_ops {A} (m : H A) : Prop :=
  ∀ σ, ∃ ops, s_db (m σ).1 = run ops (s_db σ).

(** * Properties *)

(** ** Tables and statements *)

Lemma elem_of_select_all (t : ticket) (s : store) :
  t ∈ select_all s ↔
  ∃ r, tickets s !! ticket_number t = Some r ∧ t = to_ticket (ticket_number t) r.
Proof.
  unfold select_all. rewrite list_elem_of_fmap. split.
  - intros [[k r] [-> Hin]]. apply elem_of_map_to_list in Hin. eauto.
  - intros (r & Hr & Ht). exists (ticket_number t, r). split; [done|].
    by apply elem_of_map_to_list.
Qed.

Lemma get_ticket_by_number_select (n : Z) (t : ticket) (s : store) :
  get_ticket_by_number n s = Some t ↔ t ∈ select_all s ∧ ticket_number t = n.
Proof.
  unfold get_ticket_by_number. rewrite elem_of_select_all. split.
  - destruct (tickets s !! n) as [r|] eqn:Hn; [|done].
    intros [= <-]. simpl. eauto.
  - intros [(r & Hr & ->) <-]. simpl in *. by rewrite Hr.
Qed.

(** What an [UPDATE ... WHERE ticket_number = n AND cond] does to the table:
    it rewrites the one row it matches and nothing else. *)
Lemma update_where_unfold cond set n s :
  update_where cond set n s =
  match tickets s !! n with
  | Some r => if cond r then Store (counter s) (<[n := set r]> (tickets s)) else s
  | None => s
  end.
Proof.
  destruct s as [c m]. unfold update_where. simpl.
  destruct (m !! n) as [r|] eqn:Hn.
  - destruct (cond r) eqn:Hc; f_equal; apply map_eq; intros k;
      rewrite lookup_alter; case_decide; subst; rewrite ?Hn; simpl;
      rewrite ?Hc, ?lookup_insert_eq, ?lookup_insert_ne; done.
  - f_equal. apply map_eq. intros k. rewrite lookup_alter.
    case_decide; subst; rewrite ?Hn; done.
Qed.

(** ** The counter *)

Lemma counter_step (o : op) (s : store) : counter s ≤ counter (step o s).
Proof.
  destruct o; simpl; try lia.
  - unfold create_ticket. simpl. case_decide; simpl; lia.
  - unfold _update_ticket_channel. case_decide; simpl; lia.
Qed.








(** ** The transitions *)

(** [close_ticket] and [resolve_ticket] rewrite the row with that number,
    whatever its status. *)
Lemma close_ticket_unfold (now n : Z) (s : store) :
  close_ticket now n s =
  match tickets s !! n with
  | Some r => (Store (counter s)
                     (<[n := set_status Closed (Some now) r]> (tickets s)), true)
  | None => (s, false)
  end.
Proof.
  unfold close_ticket, rowcount. rewrite update_where_unfold.
  by destruct (tickets s !! n).
Qed.

Lemma resolve_ticket_unfold (now n : Z) (s : store) :
  resolve_ticket now n s =
  match tickets s !! n with
  | Some r => (Store (counter s)
                     (<[n := set_status Resolved (Some now) r]> (tickets s)),
               true)
  | None => (s, false)
  end.
Proof.
  unfold resolve_ticket, rowcount. rewrite update_where_unfold.
  by destruct (tickets s !! n).
Qed.

(** [reopen_ticket] rewrites it only when it is closed. *)
Lemma reopen_ticket_unfold (n : Z) (s : store) :
  reopen_ticket n s =
  match tickets s !! n with
  | Some r =>
    if decide (r_status r = Closed)
    then (Store (counter s) (<[n := set_status Open None r]> (tickets s)), true)
    else (s, false)
  | None => (s, false)
  end.
Proof.
  unfold reopen_ticket, rowcount, is_closed. rewrite update_where_unfold.
  destruct (tickets s !! n) as [r|]; [|done].
  case_decide.
  - by rewrite bool_decide_eq_true_2.
  - by rewrite bool_decide_eq_false_2.
Qed.

Tactic Notation "find_row" constr(k) "as" ident(r) ident(Hk) "in" hyp(H) :=
  destruct (tickets _ !! k) as [r|] eqn:Hk; cbn [fst snd] in H.

Ltac lookup_cases n k :=
  unfold get_ticket_by_number in *; simpl in *;
  destruct (decide (n = k)) as [->|?];
  rewrite ?lookup_insert_eq, ?lookup_insert_ne in * by done; simpl in *.



(** ** The lifecycle *)

Lemma create_ticket_spec now uid uname chan s s' n :
  create_ticket now uid uname chan s = (s', Ok n) →
  n = counter s + 1 ∧ counter s' = n
  ∧ tickets s !! n = None
  ∧ tickets s' = <[n := Row uid uname chan Open now None]> (tickets s)
  ∧ get_ticket_by_number n s' = Some (Ticket n uid uname chan Open now None).
Proof.
  unfold create_ticket. simpl. case_decide as Hd; [done|].
  intros [= <- <-]. simpl. repeat split; try done.
  - apply eq_None_not_Some. tauto.
  - unfold get_ticket_by_number. simpl. by rewrite lookup_insert_eq.
Qed.

Lemma create_ticket_raise now uid uname chan s s' e :
  create_ticket now uid uname chan s = (s', Raise e) →
  e = IntegrityError ∧ tickets s' = tickets s ∧ counter s' = counter s + 1.
Proof.
  unfold create_ticket. simpl. case_decide as Hd; [|done].
  by intros [= <- <-].
Qed.

Lemma _update_ticket_channel_unfold n chan s :
  _update_ticket_channel n chan s =
  match tickets s !! n with
  | Some r =>
    if decide (channel_taken n chan (tickets s))
    then (s, Raise IntegrityError)
    else (Store (counter s) (<[n := set_channel chan r]> (tickets s)), Ok tt)
  | None => (s, Ok tt)
  end.
Proof.
  unfold _update_ticket_channel. rewrite update_where_unfold.
  destruct (tickets s !! n) as [r|] eqn:Hn.
  - destruct (decide (channel_taken n chan (tickets s))).
    + rewrite decide_True; [done|]. split; [by eexists|done].
    + rewrite decide_False; [done|]. tauto.
  - rewrite decide_False; [done|]. by intros [[? ?] _].
Qed.

(** One store operation moves the status of an existing ticket along an
    edge of the lifecycle or not at all, with one exception: [close_ticket]
    on a resolved ticket. *)
Lemma step_status (o : op) (n : Z) (s : store) (t t' : ticket) :
  get_ticket_by_number n s = Some t →
  get_ticket_by_number n (step o s) = Some t' →
  status t' = status t ∨ edge (status t) (status t')
  ∨ (status t = Resolved ∧ status t' = Closed ∧ ∃ now, o = OpClose now n).
Proof.
  intros Ht Ht'. destruct o as [|now uid uname chan|k chan|now k|k|now k];
    cbn [step] in Ht'.
  - left. unfold get_ticket_by_number in *. simpl in Ht'. congruence.
  - left. destruct (create_ticket now uid uname chan s) as [s1 [k|e]] eqn:Hc;
      simpl in Ht'.
    + apply create_ticket_spec in Hc as (_ & _ & Hfresh & Hs1 & _).
      unfold get_ticket_by_number in *. rewrite Hs1 in Ht'.
      destruct (decide (n = k)) as [->|Hne].
      * by rewrite Hfresh in Ht.
      * rewrite lookup_insert_ne in Ht' by done. congruence.
    + apply create_ticket_raise in Hc as (_ & Hs1 & _).
      unfold get_ticket_by_number in *. congruence.
  - left. rewrite _update_ticket_channel_unfold in Ht'.
    find_row k as r Hk in Ht'; [|congruence].
    case_decide; cbn [fst snd] in Ht'; [congruence|].
    lookup_cases n k; [|congruence].
    rewrite Hk in Ht. simpl in Ht. by simplify_eq.
  - rewrite close_ticket_unfold in Ht'.
    find_row k as r Hk in Ht'; [|left; congruence].
    lookup_cases n k; [|left; congruence].
    rewrite Hk in Ht. simpl in Ht. simplify_eq. simpl.
    destruct (r_status r); simpl; eauto 10.
  - rewrite reopen_ticket_unfold in Ht'.
    find_row k as r Hk in Ht'; [|left; congruence].
    case_decide as Hst; cbn [fst snd] in Ht'; [|left; congruence].
    lookup_cases n k; [|left; congruence].
    rewrite Hk in Ht. simpl in Ht. simplify_eq. simpl. rewrite Hst. simpl. auto.
  - rewrite resolve_ticket_unfold in Ht'.
    find_row k as r Hk in Ht'; [|left; congruence].
    lookup_cases n k; [|left; congruence].
    rewrite Hk in Ht. simpl in Ht. simplify_eq. simpl.
    destruct (r_status r); simpl; eauto.
Qed.

(** A ticket that appears was created open, with [closed_at] null. *)
Lemma step_created (o : op) (n : Z) (s : store) (t' : ticket) :
  get_ticket_by_number n s = None →
  get_ticket_by_number n (step o s) = Some t' →
  status t' = Open ∧ closed_at t' = None.
Proof.
  intros Ht Ht'. destruct o as [|now uid uname chan|k chan|now k|k|now k];
    cbn [step] in Ht'.
  - unfold get_ticket_by_number in *. simpl in Ht'. congruence.
  - destruct (create_ticket now uid uname chan s) as [s1 [k|e]] eqn:Hc;
      simpl in Ht'.
    + apply create_ticket_spec in Hc as (_ & _ & Hfresh & Hs1 & _).
      unfold get_ticket_by_number in *. rewrite Hs1 in Ht'.
      destruct (decide (n = k)) as [->|Hne].
      * rewrite lookup_insert_eq in Ht'. by injection Ht' as <-.
      * rewrite lookup_insert_ne in Ht' by done. congruence.
    + apply create_ticket_raise in Hc as (_ & Hs1 & _).
      unfold get_ticket_by_number in *. congruence.
  - rewrite _update_ticket_channel_unfold in Ht'.
    find_row k as r Hk in Ht'; [|congruence].
    case_decide; cbn [fst snd] in Ht'; [congruence|].
    lookup_cases n k; [|congruence].
    by rewrite Hk in Ht.
  - rewrite close_ticket_unfold in Ht'.
    find_row k as r Hk in Ht'; [|congruence].
    lookup_cases n k; [|congruence]. by rewrite Hk in Ht.
  - rewrite reopen_ticket_unfold in Ht'.
    find_row k as r Hk in Ht'; [|congruence].
    case_decide as Hst; cbn [fst snd] in Ht'; [|congruence].
    lookup_cases n k; [|congruence]. by rewrite Hk in Ht.
  - rewrite resolve_ticket_unfold in Ht'.
    find_row k as r Hk in Ht'; [|congruence].
    lookup_cases n k; [|congruence]. by rewrite Hk in Ht.
Qed.

(** C1.  [close_ticket] has no status guard: on a ticket that is resolved
    it reports a change and the ticket becomes closed; so does
    [close_ticket_channel] (on the SQLite backend), which the user-side
    close button calls without looking at the status; and a following
    [reopen_ticket] then succeeds and makes the ticket open again. *)
Theorem close_ticket_leaves_resolved (admin now n : Z) (rename : res unit)
    (w : world) (t : ticket) :
  get_ticket_by_number n (db w) = Some t →
  status t = Resolved →
  let closed := Ticket n (user_id t) (username t) (channel_id t) Closed
                       (created_at t) (Some now) in
  let s1 := (close_ticket now n (db w)).1 in
  (close_ticket now n (db w)).2 = true
  ∧ get_ticket_by_number n s1 = Some closed
  ∧ (close_ticket_channel admin LOCAL now rename n w).2 = Ok true
  ∧ db (close_ticket_channel admin LOCAL now rename n w).1 = s1
  ∧ (reopen_ticket n s1).2 = true
  ∧ status <$> get_ticket_by_number n (reopen_ticket n s1).1 = Some Open.
Proof.
  intros Ht Hst closed s1. subst closed s1.
  unfold close_ticket_channel, load_ticket, bind, execute_ok. rewrite Ht.
  rewrite reopen_ticket_unfold, close_ticket_unfold.
  unfold get_ticket_by_number in *.
  destruct (tickets (db w) !! n) as [r|] eqn:Hn; [|done].
  injection Ht as <-. simpl. rewrite !lookup_insert_eq. simpl.
  rewrite lookup_insert_eq.
  unfold except_Exception, except_TelegramError.
  repeat split; try done; by destruct rename as [[]|[]].
Qed.

(** ** Status and [closed_at] *)

Lemma store_coupled_rows (s : store) :
  store_coupled s ↔ map_Forall (fun _ r => row_coupled r) (tickets s).
Proof.
  unfold store_coupled, select_all. rewrite Forall_fmap, map_Forall_to_list.
  apply Forall_proper; [|done]. by intros [k r].
Qed.

Lemma store_coupled_lookup (s : store) :
  store_coupled s ↔ ∀ n t, get_ticket_by_number n s = Some t → coupled t.
Proof.
  rewrite store_coupled_rows. unfold get_ticket_by_number. split.
  - intros Hall n t Ht. destruct (tickets s !! n) as [r|] eqn:Hn; [|done].
    injection Ht as <-. apply (Hall n r Hn).
  - intros Hall n r Hn. apply (Hall n (to_ticket n r)). by rewrite Hn.
Qed.

Lemma update_where_coupled cond set n s :
  (∀ r, row_coupled (set r)) →
  store_coupled s → store_coupled (update_where cond set n s).
Proof.
  intros Hset. rewrite !store_coupled_rows, update_where_unfold.
  intros Hall. destruct (tickets s !! n) as [r|]; [|done].
  destruct (cond r); [|done]. simpl. by apply map_Forall_insert_2.
Qed.

(** Creation puts in an open row with [closed_at] null; close and resolve
    set [closed_at] with the status; reopen clears it with the status; the
    channel backfill touches neither. *)
Lemma step_coupled (o : op) (s : store) :
  store_coupled s → store_coupled (step o s).
Proof.
  intros Hs. destruct o as [|now uid uname chan|k chan|now k|k|now k];
    cbn [step].
  - done.
  - unfold create_ticket. simpl. case_decide; [done|].
    rewrite store_coupled_rows in *. simpl. apply map_Forall_insert_2; [|done].
    unfold row_coupled. simpl. split; [by intros [? ?]|by intros [?|?]].
  - unfold _update_ticket_channel. case_decide; [done|]. simpl.
    rewrite store_coupled_rows in *. rewrite update_where_unfold.
    destruct (tickets s !! k) as [r|] eqn:Hk; [|done]. simpl.
    apply map_Forall_insert_2; [|done]. apply (Hs k r Hk).
  - apply update_where_coupled; [|done]. intros r. unfold row_coupled. simpl.
    split; eauto.
  - apply update_where_coupled; [|done]. intros r. unfold row_coupled. simpl.
    split; [by intros [? ?]|by intros [?|?]].
  - apply update_where_coupled; [|done]. intros r. unfold row_coupled. simpl.
    split; eauto.
Qed.

(** What each operation writes, read back by number. *)
Lemma transitions_write_closed_at (now n : Z) (s : store) (t : ticket) :
  get_ticket_by_number n s = Some t →
  (fun t' => (status t', closed_at t'))
    <$> get_ticket_by_number n (close_ticket now n s).1
  = Some (Closed, Some now)
  ∧ (fun t' => (status t', closed_at t'))
      <$> get_ticket_by_number n (resolve_ticket now n s).1
    = Some (Resolved, Some now)
  ∧ (status t = Closed →
     (fun t' => (status t', closed_at t'))
       <$> get_ticket_by_number n (reopen_ticket n s).1
     = Some (Open, None)).
Proof.
  rewrite close_ticket_unfold, resolve_ticket_unfold, reopen_ticket_unfold.
  unfold get_ticket_by_number.
  destruct (tickets s !! n) as [r|] eqn:Hn; [|done]. intros [= <-]. simpl.
  rewrite !lookup_insert_eq. repeat split; try done.
  intros Hst. rewrite decide_True by done. simpl.
  by rewrite lookup_insert_eq.
Qed.

Lemma run_coupled (ops : list op) (s : store) :
  store_coupled s → store_coupled (run ops s).
Proof.
  revert s. induction ops as [|o ops IH]; intros s Hs; simpl; [done|].
  by apply IH, step_coupled.
Qed.

(** C3.  In a store where [closed_at] is non-null exactly on the closed and
    resolved tickets, that is still so for every ticket a lookup returns
    after any sequence of [get_next_ticket_number], [create_ticket], channel
    backfill, [close_ticket], [reopen_ticket] and [resolve_ticket]; and in
    the store so reached each operation writes the two columns together:
    [create_ticket] inserts its row open with [closed_at] null,
    [close_ticket] and [resolve_ticket] set the status and [closed_at] to
    the time of the call, [reopen_ticket] sets a closed ticket open and
    [closed_at] null (and leaves a ticket that is not closed alone), and
    the channel backfill changes neither column. *)
Theorem closed_at_coupling (ops : list op) (s : store) :
  store_coupled s →
  let s' := run ops s in
  store_coupled s'
  ∧ (∀ n t, get_ticket_by_number n s' = Some t →
            (is_Some (closed_at t) ↔ status t = Closed ∨ status t = Resolved))
  ∧ (∀ now uid uname chan n,
       (create_ticket now uid uname chan s').2 = Ok n →
       get_ticket_by_number n (create_ticket now uid uname chan s').1
       = Some (Ticket n uid uname chan Open now None))
  ∧ (∀ now n t,
       get_ticket_by_number n s' = Some t →
       get_ticket_by_number n (close_ticket now n s').1
       = Some (Ticket n (user_id t) (username t) (channel_id t) Closed
                      (created_at t) (Some now))
       ∧ get_ticket_by_number n (resolve_ticket now n s').1
         = Some (Ticket n (user_id t) (username t) (channel_id t) Resolved
                        (created_at t) (Some now))
       ∧ (status t = Closed →
          get_ticket_by_number n (reopen_ticket n s').1
          = Some (Ticket n (user_id t) (username t) (channel_id t) Open
                         (created_at t) None))
       ∧ (status t ≠ Closed → (reopen_ticket n s').1 = s'))
  ∧ (∀ n c t t',
       get_ticket_by_number n s' = Some t →
       get_ticket_by_number n (_update_ticket_channel n c s').1 = Some t' →
       status t' = status t ∧ closed_at t' = closed_at t).
Proof.
  intros Hs%(run_coupled ops). cbv zeta. generalize dependent (run ops s).
  clear s. intros s Hs.
  split; [done|]. split; [by apply store_coupled_lookup|]. split_and!.
  - intros now uid uname chan n Hn.
    destruct (create_ticket now uid uname chan s) as [s1 [k|e]] eqn:Hc;
      simpl in *; [|done].
    injection Hn as ->. by apply create_ticket_spec in Hc as (_ & _ & _ & _ & ?).
  - intros now n t Ht.
    rewrite close_ticket_unfold, resolve_ticket_unfold, reopen_ticket_unfold.
    unfold get_ticket_by_number in *.
    destruct (tickets s !! n) as [r|] eqn:Hn; [|done]. injection Ht as <-.
    simpl. rewrite !lookup_insert_eq. split_and!; try done.
    + intros Hst. rewrite decide_True by done. simpl.
      by rewrite lookup_insert_eq.
    + intros Hst. by rewrite decide_False.
  - intros n c t t'. rewrite _update_ticket_channel_unfold.
    unfold get_ticket_by_number.
    destruct (tickets s !! n) as [r|] eqn:Hn; [|done]. intros [= <-].
    case_decide; simpl.
    + rewrite Hn. by intros [= <-].
    + rewrite lookup_insert_eq. by intros [= <-].
Qed.

(** The freshly initialised database is such a store. *)
Corollary init_database_coupled (ops : list op) (n : Z) (t : ticket) :
  get_ticket_by_number n (run ops init_database) = Some t → coupled t.
Proof.
  apply store_coupled_lookup, run_coupled. constructor.
Qed.

(** ** Lookup by user *)

#[global] Instance created_desc_total : Total created_desc.
Proof. intros a b. unfold created_desc. lia. Qed.

#[global] Instance created_desc_trans : Transitive created_desc.
Proof. intros a b c. unfold created_desc. lia. Qed.

(** [ORDER BY ... LIMIT 1] over a non-empty selection yields one of the
    selected rows, and none of the others is ordered strictly before it. *)
Lemma head_merge_sort_Some (l : list ticket) (t : ticket) :
  head (merge_sort created_desc l) = Some t →
  t ∈ l ∧ ∀ t', t' ∈ l → created_desc t t'.
Proof.
  intros Hh.
  pose proof (StronglySorted_merge_sort created_desc l) as Hs.
  pose proof (merge_sort_Permutation created_desc l) as Hp.
  destruct (merge_sort created_desc l) as [|x l']; [done|].
  injection Hh as ->. split.
  - rewrite <- Hp. left.
  - intros t' Ht'. rewrite <- Hp in Ht'.
    apply StronglySorted_inv in Hs as [_ Hall].
    apply elem_of_cons in Ht' as [->|Hin].
    + unfold created_desc. lia.
    + rewrite Forall_forall in Hall. by apply Hall.
Qed.

Lemma head_merge_sort_None (l : list ticket) :
  head (merge_sort created_desc l) = None → l = [].
Proof.
  intros Hh. pose proof (merge_sort_Permutation created_desc l) as Hp.
  destruct (merge_sort created_desc l); [|done].
  by apply Permutation_nil_l in Hp.
Qed.

Lemma get_ticket_by_user_Some uid st s t :
  get_ticket_by_user uid st s = Some t →
  t ∈ select_all s ∧ user_id t = uid ∧ status_name (status t) = st
  ∧ ∀ t', t' ∈ select_all s → user_id t' = uid →
          status_name (status t') = st → created_at t' ≤ created_at t.
Proof.
  unfold get_ticket_by_user. intros [Hin Hmax]%head_merge_sort_Some.
  apply list_elem_of_filter in Hin as [[Hu Hst] Hin]. repeat split; try done.
  intros t' Hin' Hu' Hst'. apply (Hmax t').
  apply list_elem_of_filter. done.
Qed.

Lemma get_ticket_by_user_None uid st s :
  get_ticket_by_user uid st s = None →
  ∀ t', t' ∈ select_all s →
        ¬ (user_id t' = uid ∧ status_name (status t') = st).
Proof.
  unfold get_ticket_by_user. intros Hnil%head_merge_sort_None t' Hin Hm.
  assert (t' ∈ filter (fun t => user_id t = uid ∧ status_name (status t) = st)
                      (select_all s)) as Hf
    by (apply list_elem_of_filter; done).
  rewrite Hnil in Hf. by apply elem_of_nil in Hf.
Qed.

Lemma get_ticket_by_user_is_Some uid st s t :
  t ∈ select_all s → user_id t = uid → status_name (status t) = st →
  is_Some (get_ticket_by_user uid st s).
Proof.
  intros Hin Hu Hst.
  destruct (get_ticket_by_user uid st s) eqn:Hg; [by eexists|].
  by destruct (get_ticket_by_user_None _ _ _ Hg t Hin).
Qed.

(** C9.  When [get_ticket_by_user uid st] returns a ticket, it is a ticket
    of the store, of that user and with that status, and no ticket of that
    user with that status has a later [created_at]; it returns [None]
    exactly when the store has no ticket of that user with that status. *)
Theorem get_ticket_by_user_spec (uid : Z) (st : str) (s : store) :
  match get_ticket_by_user uid st s with
  | Some t =>
    t ∈ select_all s ∧ user_id t = uid ∧ status_name (status t) = st
    ∧ ∀ t', t' ∈ select_all s → user_id t' = uid →
            status_name (status t') = st → created_at t' ≤ created_at t
  | None =>
    ∀ t', t' ∈ select_all s →
          ¬ (user_id t' = uid ∧ status_name (status t') = st)
  end.
Proof.
  destruct (get_ticket_by_user uid st s) as [t|] eqn:Hg.
  - by apply get_ticket_by_user_Some.
  - by apply get_ticket_by_user_None.
Qed.

(** ** The channel-name sanitizer *)

Lemma foldl_replace (name : str) (cs : list char) :
  foldl (fun name c => replace c name) name cs
  = filter (fun x => x ∉ cs) name.
Proof.
  revert name. induction cs as [|c cs IH]; intros name; cbn [foldl].
  - induction name as [|x name IHn]; [done|].
    rewrite filter_cons_True by apply not_elem_of_nil. by rewrite <- IHn.
  - rewrite IH. unfold replace. rewrite list_filter_filter.
    apply list_filter_iff. intros x. rewrite not_elem_of_cons. tauto.
Qed.

(** C8, as the code has it.  The length is tested after the five
    characters are removed.  With [stripped] the input without them: the
    result holds none of them; it is [stripped] itself when that has at
    most 128 characters (in particular when the input has), and otherwise
    the first 125 characters of [stripped] followed by three dots, 128
    characters in all; so it never has more than 128 characters. *)
Theorem sanitize_channel_name_spec (name : str) :
  let stripped := filter (fun x => x ∉ invalid_chars) name in
  let result := _sanitize_channel_name name in
  (∀ c, c ∈ invalid_chars → c ∉ result)
  ∧ (length result ≤ 128)%nat
  ∧ ((length stripped ≤ 128)%nat → result = stripped)
  ∧ ((length name ≤ 128)%nat → result = stripped)
  ∧ ((128 < length stripped)%nat →
       result = take 125 stripped ++ of_string "..."
       ∧ length result = 128%nat).
Proof.
  cbv zeta. unfold _sanitize_channel_name. rewrite foldl_replace.
  set (stripped := filter (fun x => x ∉ invalid_chars) name).
  assert (∀ c, c ∈ invalid_chars → c ∉ stripped) as Hclean.
  { intros c Hc Hin. apply list_elem_of_filter in Hin as [Hn _]. done. }
  assert (length stripped ≤ length name)%nat as Hle by apply length_filter.
  case_decide as Hlong; repeat split; try done; try lia.
  - intros c Hc Hin. apply elem_of_app in Hin as [Hin|Hin].
    + apply (Hclean c Hc). by eapply subseteq_take.
    + revert Hc Hin. unfold invalid_chars. vm_compute of_string.
      rewrite !elem_of_cons, !elem_of_nil. intros H1 H2.
      destruct H1 as [->|[->|[->|[->|[->|[]]]]]]; intuition discriminate.
  - rewrite length_app, length_take. vm_compute (length (of_string "...")). lia.
  - rewrite length_app, length_take. vm_compute (length (of_string "...")). lia.
Qed.

(** An input of more than 128 characters is not always cut to 128
    characters ending in three dots: a [<] followed by 128 letters (129
    characters) comes back as the 128 letters, and five [<] followed by 125
    letters (130 characters) as the 125 letters. *)
Lemma sanitize_long_input_not_truncated :
  let one := 60%N :: replicate 128 97%N in
  let five := replicate 5 60%N ++ replicate 125 97%N in
  (128 < length one)%nat
  ∧ _sanitize_channel_name one = replicate 128 97%N
  ∧ drop 125 (_sanitize_channel_name one) ≠ of_string "..."
  ∧ (128 < length five)%nat
  ∧ _sanitize_channel_name five = replicate 125 97%N
  ∧ length (_sanitize_channel_name five) ≠ 128%nat.
Proof. vm_compute. split_and!; (done || lia). Qed.

(** ** The admin-side relay *)

(** C6.  An admin-side message whose channel has no ticket, or a ticket
    that is not open, is dropped: the handler calls the transport not at
    all (nothing is sent to the user, nothing is replied), changes nothing
    and returns normally. *)
Theorem handle_admin_message_dropped (lower : str -> str)
    (delivery reply : res unit) (update_message : option message)
    (w : world) :
  (∀ m chat_id t,
     update_message = Some m → chat m = Some chat_id →
     get_ticket_info (channel_of (message_thread_id m) chat_id) (db w) = Some t →
     status t ≠ Open) →
  handle_admin_message lower delivery reply update_message w = (w, Ok tt).
Proof.
  intros Hdrop. unfold handle_admin_message.
  destruct update_message as [m|]; [|done].
  destruct (chat m) as [chat_id|] eqn:Hchat; [|done].
  destruct (startswith _ _); [done|].
  destruct (_ || _); [done|].
  unfold bind, query.
  destruct (get_ticket_info _ (db w)) as [t|] eqn:Ht; [|done].
  specialize (Hdrop m chat_id t eq_refl Hchat Ht).
  case_decide; [done|]. destruct (status t); naive_solver.
Qed.

(** For comparison: with an open ticket behind the channel, a message that
    is neither a command nor blank is sent to the ticket's user first. *)
Lemma handle_admin_message_relayed (lower : str -> str)
    (delivery reply : res unit) (m : message) (chat_id : Z) (body : str)
    (t : ticket) (w : world) :
  chat m = Some chat_id → text m = Some body →
  startswith (of_string "/") body = false →
  nonempty (strip body) = true →
  get_ticket_info (channel_of (message_thread_id m) chat_id) (db w) = Some t →
  status t = Open →
  ∃ more,
    calls (handle_admin_message lower delivery reply (Some m) w).1
    = calls w ++ send_message (user_id t) body None
                   (Some (of_string "Markdown")) :: more.
Proof.
  intros Hchat Htext Hcmd Hblank Ht Hst. unfold handle_admin_message.
  rewrite Hchat, Htext. cbv [default from_option id]. rewrite Hcmd, Hblank.
  assert (nonempty body = true) as -> by (by destruct body).
  cbn [negb orb]. unfold bind, query. rewrite Ht. rewrite decide_False
    by (rewrite Hst; intros [?|?]; done).
  unfold except_TelegramError, except_Exception, await. simpl.
  destruct delivery as [[]|[|msg|]]; simpl; eauto.
  destruct reply as [[]|e]; simpl; rewrite <- app_assoc; simpl; eauto.
Qed.

(** ** Ticket creation *)

Lemma status_name_open (st : status_t) :
  status_name st = of_string "open" ↔ st = Open.
Proof. destruct st; vm_compute; split; congruence. Qed.

Ltac unfold_M :=
  unfold bind, query, execute, execute_ok, await, ret, except_TelegramError,
    except_Exception.

Lemma create_ticket_channel_existing admin now topic delivery uid uname msg
    w t :
  get_ticket_by_user uid (of_string "open") (db w) = Some t →
  create_ticket_channel admin now topic delivery uid uname msg w
  = (w, Some (inl t)).
Proof.
  intros Ht. unfold create_ticket_channel, create_ticket_channel_try.
  unfold_M. by rewrite Ht.
Qed.

(** A call that finds no open ticket and returns a dictionary has inserted
    exactly one row, the one it describes. *)
Lemma create_ticket_channel_created admin now topic delivery uid uname msg
    w w1 info :
  get_ticket_by_user uid (of_string "open") (db w) = None →
  create_ticket_channel admin now topic delivery uid uname msg w
  = (w1, Some info) →
  ∃ n, info = inr (TicketInfo n uid uname (channel_for admin topic)
                              (of_string "open"))
       ∧ n = counter (db w) + 1
       ∧ tickets (db w) !! n = None
       ∧ tickets (db w1)
         = <[n := Row uid uname (channel_for admin topic) Open now None]>
             (tickets (db w)).
Proof.
  intros Hnone. unfold create_ticket_channel, create_ticket_channel_try.
  unfold_M. rewrite Hnone.
  destruct (create_ticket now uid uname 0 (db w)) as [s1 [n|e]] eqn:Hc;
    [|done].
  apply create_ticket_spec in Hc as (Hn & _ & Hfresh & Hs1 & _).
  assert (∀ c s2 r, _update_ticket_channel n c s1 = (s2, Ok r) →
            tickets s2 = <[n := Row uid uname c Open now None]>
                           (tickets (db w))) as Hupd.
  { intros c s2 r. rewrite _update_ticket_channel_unfold, Hs1.
    rewrite lookup_insert_eq. case_decide; [done|]. intros [= <- _]. simpl.
    by rewrite insert_insert_eq. }
  intros Hres. exists n.
  destruct topic as [c|[|m|]]; simpl in *; try done;
    match type of Hres with
    | context [_update_ticket_channel n ?c s1] =>
      destruct (_update_ticket_channel n c s1) as [s2 [[]|e]] eqn:Hu;
        simpl in *; [|done]; apply Hupd in Hu
    end;
    case_decide; destruct delivery as [[]|[|m'|]]; simpl in *;
    simplify_eq; done.
Qed.

(** C4.  For a user who has an open ticket, [create_ticket_channel]
    returns a ticket of the store that is that user's and open, and leaves
    the world as it was: no number allocated, no row inserted, no transport
    call.  And when a call succeeds, the next call for the same user
    (whatever its other arguments and whatever the transport would answer)
    returns the row of the same ticket (same number, user, channel,
    status open) and again changes nothing. *)
Theorem create_ticket_channel_idempotent (admin uid : Z) (w : world)
    (now : Z) (topic : res Z) (delivery : res unit) (uname : option str)
    (msg : str)
    (now' : Z) (topic' : res Z) (delivery' : res unit) (uname' : option str)
    (msg' : str) :
  ((∃ t, t ∈ select_all (db w) ∧ user_id t = uid ∧ status t = Open) →
   ∃ t, create_ticket_channel admin now topic delivery uid uname msg w
        = (w, Some (inl t))
        ∧ t ∈ select_all (db w) ∧ user_id t = uid ∧ status t = Open)
  ∧ (∀ w1 info,
       create_ticket_channel admin now topic delivery uid uname msg w
       = (w1, Some info) →
       ∃ t, create_ticket_channel admin now' topic' delivery' uid uname' msg' w1
            = (w1, Some (inl t))
            ∧ get_ticket_by_number (info_ticket_number info) (db w1) = Some t
            ∧ ticket_number t = info_ticket_number info
            ∧ user_id t = info_user_id info
            ∧ channel_id t = info_channel_id info
            ∧ status_name (status t) = info_status info
            ∧ status t = Open).
Proof.
  split.
  - intros (t0 & Hin & Hu & Hst).
    destruct (get_ticket_by_user_is_Some uid (of_string "open") (db w) t0)
      as [t Ht]; [done..|by apply status_name_open|].
    exists t. rewrite (create_ticket_channel_existing _ _ _ _ _ _ _ _ _ Ht).
    apply get_ticket_by_user_Some in Ht as (? & ? & ?%status_name_open & _).
    done.
  - intros w1 info Hcall.
    destruct (get_ticket_by_user uid (of_string "open") (db w)) as [t|] eqn:Hg.
    + rewrite (create_ticket_channel_existing _ _ _ _ _ _ _ _ _ Hg) in Hcall.
      simplify_eq. exists t.
      rewrite (create_ticket_channel_existing _ _ _ _ _ _ _ _ _ Hg).
      apply get_ticket_by_user_Some in Hg as (Hin & ? & Hst & _).
      repeat split; try done; [|by apply status_name_open].
      by apply get_ticket_by_number_select.
    + destruct (create_ticket_channel_created _ _ _ _ _ _ _ _ _ _ Hg Hcall)
        as (n & -> & _ & Hfresh & Hs1).
      set (new := to_ticket n
                    (Row uid uname (channel_for admin topic) Open now None)).
      assert (new ∈ select_all (db w1)) as Hnew.
      { apply elem_of_select_all. eexists. simpl. rewrite Hs1.
        by rewrite lookup_insert_eq. }
      destruct (get_ticket_by_user_is_Some uid (of_string "open") (db w1) new)
        as [t Ht]; [done..|].
      assert (t = new) as ->.
      { pose proof Ht as (Hin & Hu & Hst & _)%get_ticket_by_user_Some.
        apply elem_of_select_all in Hin as (r & Hr & Heq).
        rewrite Hs1 in Hr.
        destruct (decide (ticket_number t = n)) as [Hn|Hn].
        - rewrite Hn in Hr, Heq. rewrite lookup_insert_eq in Hr.
          injection Hr as <-. exact Heq.
        - rewrite lookup_insert_ne in Hr by done.
          destruct (get_ticket_by_user_None _ _ _ Hg t); [|done].
          apply elem_of_select_all. eauto. }
      exists new. rewrite (create_ticket_channel_existing _ _ _ _ _ _ _ _ _ Ht).
      repeat split; try done. simpl.
      unfold get_ticket_by_number. rewrite Hs1. by rewrite lookup_insert_eq.
Qed.

Lemma _update_ticket_channel_keeps n c s m :
  is_Some (get_ticket_by_number m s) →
  is_Some (get_ticket_by_number m (_update_ticket_channel n c s).1).
Proof.
  rewrite _update_ticket_channel_unfold. unfold get_ticket_by_number.
  destruct (tickets s !! n) as [r|] eqn:Hn; [|done].
  case_decide; [done|]. simpl. destruct (decide (m = n)) as [->|Hne].
  - rewrite lookup_insert_eq. by eexists.
  - by rewrite lookup_insert_ne.
Qed.

(** When [create_ticket_channel] returns [None], and that an inserted row
    stays. *)
Lemma create_ticket_channel_result (admin now : Z) (topic : res Z)
    (delivery : res unit) (uid : Z) (uname : option str) (msg : str)
    (w : world) :
  let result := create_ticket_channel admin now topic delivery uid uname msg w in
  (result.2 = None ↔
   get_ticket_by_user uid (of_string "open") (db w) = None
   ∧ match create_ticket now uid uname 0 (db w) with
     | (_, Raise _) => True
     | (s1, Ok n) =>
       fatal topic
       ∨ (_update_ticket_channel n (channel_for admin topic) s1).2
         = Raise IntegrityError
       ∨ fatal delivery
     end)
  ∧ (∀ s1 n,
       get_ticket_by_user uid (of_string "open") (db w) = None →
       create_ticket now uid uname 0 (db w) = (s1, Ok n) →
       is_Some (get_ticket_by_number n (db result.1))).
Proof.
  cbv zeta. unfold create_ticket_channel, create_ticket_channel_try. unfold_M.
  destruct (get_ticket_by_user uid (of_string "open") (db w)) as [t|] eqn:Hg.
  { split; [|done]. split; [done|]. by intros [? _]. }
  destruct (create_ticket now uid uname 0 (db w)) as [s1 [n|e]] eqn:Hc.
  2: { split; [|done]. simpl. tauto. }
  assert (is_Some (get_ticket_by_number n s1)) as Hrow.
  { apply create_ticket_spec in Hc as (_ & _ & _ & _ & ->). by eexists. }
  assert (∀ c, is_Some (get_ticket_by_number n
                          (_update_ticket_channel n c s1).1)) as Hkeep
    by (intros c; by apply _update_ticket_channel_keeps).
  assert (∀ c e, (_update_ticket_channel n c s1).2 = Raise e
                 → e = IntegrityError) as Hexn.
  { intros c e. unfold _update_ticket_channel. case_decide; simpl; congruence. }
  split.
  - split.
    + intros Hres. split; [done|].
      destruct topic as [c|[|m|]]; simpl in *; auto;
        match goal with
        | |- context [_update_ticket_channel n ?c s1] =>
          pose proof (Hexn c) as Hexn';
          destruct (_update_ticket_channel n c s1) as [s2 [[]|e]];
            simpl in *; [|rewrite (Hexn' e); auto]
        end;
        case_decide; destruct delivery as [[]|[|m'|]]; simpl in *;
        try done; auto.
    + intros [_ Hfail].
      destruct topic as [c|[|m|]]; simpl in *; try done;
        match goal with
        | |- context [_update_ticket_channel n ?c s1] =>
          destruct (_update_ticket_channel n c s1) as [s2 [[]|e]];
            simpl in *; [|done]
        end;
        case_decide; destruct delivery as [[]|[|m'|]]; simpl in *;
        try done; destruct Hfail as [?|[?|?]]; done.
  - intros s1' n' _ [= <- <-].
    destruct topic as [c|[|m|]]; simpl in *; try done;
      match goal with
      | |- context [_update_ticket_channel n ?c s1] =>
        specialize (Hkeep c);
        destruct (_update_ticket_channel n c s1) as [s2 [[]|e]];
          simpl in *; [|done]
      end;
      case_decide; destruct delivery as [[]|[|m'|]]; simpl in *; done.
Qed.

(** C5, as the code has it.  [create_ticket_channel] returns [None] exactly
    when it finds no open ticket of the user and then the insert raises, or
    topic creation raises something that is not a [TelegramError], or the
    channel backfill violates the uniqueness of [channel_id], or the
    delivery of the first message raises something that is not a
    [TelegramError].  A [TelegramError] from topic creation is caught, but
    the channel is then the admin group, and the backfill of that channel
    can fail.  A [TelegramError] from the delivery never changes whether the
    result is [None].  [None] stands for every exception of the body, so
    none leaves the function; and a row that was inserted stays in the
    table whatever happens afterwards. *)
Theorem create_ticket_channel_None (admin now : Z) (topic : res Z)
    (delivery : res unit) (uid : Z) (uname : option str) (msg : str)
    (w : world) :
  let result := create_ticket_channel admin now topic delivery uid uname msg w in
  (result.2 = None ↔
   get_ticket_by_user uid (of_string "open") (db w) = None
   ∧ match create_ticket now uid uname 0 (db w) with
     | (_, Raise _) => True
     | (s1, Ok n) =>
       fatal topic
       ∨ (_update_ticket_channel n (channel_for admin topic) s1).2
         = Raise IntegrityError
       ∨ fatal delivery
     end)
  ∧ (∀ s1 n,
       get_ticket_by_user uid (of_string "open") (db w) = None →
       create_ticket now uid uname 0 (db w) = (s1, Ok n) →
       is_Some (get_ticket_by_number n (db result.1)))
  ∧ (result.2 = None ↔
     ∃ e, (create_ticket_channel_try admin now topic delivery uid uname msg
             w).2 = Raise e)
  ∧ (∀ e,
       (create_ticket_channel admin now topic (Raise (TelegramError e)) uid
          uname msg w).2 = None
       ↔ (create_ticket_channel admin now topic (Ok tt) uid uname msg w).2
         = None).
Proof.
  cbv zeta.
  destruct (create_ticket_channel_result admin now topic delivery uid uname
              msg w) as [Hiff Hrow].
  split; [exact Hiff|]. split; [exact Hrow|]. split.
  - unfold create_ticket_channel.
    destruct (create_ticket_channel_try admin now topic delivery uid uname
                msg w) as [w' [info|e]]; simpl.
    + split; [done|]. by intros [e ?].
    + split; [by eexists|done].
  - intros e.
    destruct (create_ticket_channel_result admin now topic
                (Raise (TelegramError e)) uid uname msg w) as [-> _].
    destruct (create_ticket_channel_result admin now topic (Ok tt) uid uname
                msg w) as [-> _].
    destruct (create_ticket now uid uname 0 (db w)) as [s1 [n|e']]; simpl;
      tauto.
Qed.

(** In an admin group without forum topics the second ticket cannot be
    backfilled: the group's id is already the channel of the first.  The
    number was allocated and the row inserted, yet the result is [None], and
    the row stays behind, open, with the placeholder channel. *)
Lemma backfill_failure_returns_None :
  let result :=
    create_ticket_channel admin_group 6 not_a_forum (Ok tt) 8 None
      (of_string "hello") scenario_fallback in
  get_ticket_by_user 8 (of_string "open") (db scenario_fallback) = None
  ∧ (create_ticket 6 8 None 0 (db scenario_fallback)).2 = Ok 2
  ∧ result.2 = None
  ∧ get_ticket_by_number 2 (db result.1) = Some (Ticket 2 8 None 0 Open 6 None).
Proof. vm_compute. done. Qed.

(** ** The properties at work *)

Lemma close_ticket_leaves_resolved_witness :
  let t := Ticket 1 7 (Some (of_string "bob")) 41 Resolved 10 (Some 20) in
  get_ticket_by_number 1 scenario_resolved = Some t
  ∧ (close_ticket 30 1 scenario_resolved).2 = true
  ∧ get_ticket_by_number 1 (close_ticket 30 1 scenario_resolved).1
    = Some (Ticket 1 7 (Some (of_string "bob")) 41 Closed 10 (Some 30))
  ∧ (close_ticket_channel admin_group LOCAL 30 (Ok tt) 1
       (World scenario_resolved [])).2 = Ok true.
Proof.
  intros t.
  assert (get_ticket_by_number 1 scenario_resolved = Some t) as Ht
    by (vm_compute; reflexivity).
  split; [exact Ht|].
  destruct (close_ticket_leaves_resolved admin_group 30 1 (Ok tt)
              (World scenario_resolved []) t Ht eq_refl)
    as (H1 & H2 & H3 & _).
  repeat split; assumption.
Defined.

Lemma closed_at_coupling_witness :
  store_coupled scenario_resolved
  ∧ store_coupled (run [OpClose 30 1; OpReopen 1] scenario_resolved)
  ∧ get_ticket_by_number 1
      (resolve_ticket 40 1 (run [OpClose 30 1; OpReopen 1] scenario_resolved)).1
    = Some (Ticket 1 7 (Some (of_string "bob")) 41 Resolved 10 (Some 40)).
Proof.
  assert (store_coupled scenario_resolved) as Hs
    by (apply (bool_decide_unpack _); vm_compute; exact I).
  split; [exact Hs|].
  destruct (closed_at_coupling [OpClose 30 1; OpReopen 1] scenario_resolved Hs)
    as (Hc & _ & _ & Hw & _).
  split; [exact Hc|].
  destruct (Hw 40 1 (Ticket 1 7 (Some (of_string "bob")) 41 Open 10 None))
    as (_ & Hr & _); [vm_compute; reflexivity|exact Hr].
Defined.

Lemma handle_admin_message_dropped_witness :
  let update :=
    Some (Message (Some admin_group) (Some (of_string "any news?")) (Some 41)) in
  handle_admin_message (fun e => e) (Ok tt) (Ok tt) update
    (World scenario_resolved [])
  = (World scenario_resolved [], Ok tt).
Proof.
  intros update.
  apply (handle_admin_message_dropped (fun e => e) (Ok tt) (Ok tt) update
           (World scenario_resolved [])).
  intros m chat_id t [= <-] [= <-]. vm_compute. intros [= <-]. discriminate.
Defined.

Lemma create_ticket_channel_idempotent_witness :
  ∃ t, create_ticket_channel admin_group 6 (Ok 42) (Ok tt) 7
         (Some (of_string "bob")) (of_string "still there?") scenario_fallback
       = (scenario_fallback, Some (inl t))
       ∧ ticket_number t = 1.
Proof.
  destruct (create_ticket_channel_idempotent admin_group 7
              (World init_database [])
              5 not_a_forum (Ok tt) (Some (of_string "bob"))
              (of_string "help me")
              6 (Ok 42) (Ok tt) (Some (of_string "bob"))
              (of_string "still there?")) as [_ Hsecond].
  destruct (Hsecond scenario_fallback
              (inr (TicketInfo 1 7 (Some (of_string "bob")) admin_group
                               (of_string "open"))))
    as (t & Hcall & _ & Hn & _).
  - vm_compute. reflexivity.
  - exists t. split; [exact Hcall|exact Hn].
Defined.

Example sanitize_short :
  _sanitize_channel_name (of_string "Ticket #3 - @o'neil <b>&co")
  = of_string "Ticket #3 - @oneil bco".
Proof. vm_compute. reflexivity. Qed.

Example sanitize_long :
  _sanitize_channel_name (replicate 200 97%N)
  = replicate 125 97%N ++ of_string "...".
Proof. vm_compute. reflexivity. Qed.

Example next_numbers_from_init :
  issued_by (calls_of_next 3) init_database = [1; 2; 3].
Proof. vm_compute. reflexivity. Qed.

Example reopen_resolved_refused :
  reopen_ticket 1 scenario_resolved = (scenario_resolved, false).
Proof. vm_compute. reflexivity. Qed.

Example resolve_twice :
  get_ticket_by_number 1 (resolve_ticket 99 1 scenario_resolved).1
  = Some (Ticket 1 7 (Some (of_string "bob")) 41 Resolved 10 (Some 99))
  ∧ (resolve_ticket 99 1 scenario_resolved).2 = true.
Proof. vm_compute. done. Qed.

(** On PostgreSQL the same call stops at the dictionary and closes nothing. *)
Example close_ticket_channel_postgres :
  close_ticket_channel admin_group POSTGRES 30 (Ok tt) 1
    (World scenario_resolved [])
  = (World scenario_resolved [], Raise Exception).
Proof. vm_compute. reflexivity. Qed.

(** * Further properties of the code *)

(** ** How one operation changes one row *)

(** Row [m] after an operation is the row before, or the row the operation
    inserted under the next number, or the row the operation rewrote. *)
Lemma step_row (o : op) (s : store) (m : Z) :
  tickets (step o s) !! m = tickets s !! m
  ∨ (tickets s !! m = None
     ∧ ∃ now uid uname chan,
         o = OpCreate now uid uname chan ∧ m = counter s + 1
         ∧ ¬ channel_taken m chan (tickets s)
         ∧ tickets (step o s) !! m = Some (Row uid uname chan Open now None))
  ∨ (∃ r, tickets s !! m = Some r
          ∧ ((∃ c, o = OpUpdateChannel m c ∧ ¬ channel_taken m c (tickets s)
                   ∧ tickets (step o s) !! m = Some (set_channel c r))
             ∨ (∃ now, o = OpClose now m
                       ∧ tickets (step o s) !! m
                         = Some (set_status Closed (Some now) r))
             ∨ (o = OpReopen m ∧ r_status r = Closed
                ∧ tickets (step o s) !! m = Some (set_status Open None r))
             ∨ (∃ now, o = OpResolve now m
                       ∧ tickets (step o s) !! m
                         = Some (set_status Resolved (Some now) r)))).
Proof.
  destruct o as [|now uid uname chan|k chan|now k|k|now k]; cbn [step].
  - by left.
  - unfold create_ticket. simpl. case_decide as Hd; simpl; [by left|].
    destruct (decide (m = counter s + 1)) as [->|Hne].
    + right. left. split; [apply eq_None_not_Some; tauto|].
      eexists _, _, _, _. rewrite lookup_insert_eq. split_and!; try done. tauto.
    + left. by rewrite lookup_insert_ne.
  - rewrite _update_ticket_channel_unfold.
    destruct (tickets s !! k) as [r|] eqn:Hk; [|by left].
    case_decide as Hd; simpl; [by left|].
    destruct (decide (m = k)) as [->|Hne].
    + right. right. exists r. split; [done|]. left. exists chan.
      by rewrite lookup_insert_eq.
    + left. by rewrite lookup_insert_ne.
  - rewrite close_ticket_unfold.
    destruct (tickets s !! k) as [r|] eqn:Hk; [|by left]. simpl.
    destruct (decide (m = k)) as [->|Hne].
    + right. right. exists r. split; [done|]. right. left. exists now.
      by rewrite lookup_insert_eq.
    + left. by rewrite lookup_insert_ne.
  - rewrite reopen_ticket_unfold.
    destruct (tickets s !! k) as [r|] eqn:Hk; [|by left].
    case_decide as Hst; simpl; [|by left].
    destruct (decide (m = k)) as [->|Hne].
    + right. right. exists r. split; [done|]. right. right. left.
      by rewrite lookup_insert_eq.
    + left. by rewrite lookup_insert_ne.
  - rewrite resolve_ticket_unfold.
    destruct (tickets s !! k) as [r|] eqn:Hk; [|by left]. simpl.
    destruct (decide (m = k)) as [->|Hne].
    + right. right. exists r. split; [done|]. right. right. right. exists now.
      by rewrite lookup_insert_eq.
    + left. by rewrite lookup_insert_ne.
Qed.

(** ** Rows are kept *)

Lemma step_keeps_row (o : op) (s : store) (m : Z) (r : row) :
  tickets s !! m = Some r →
  ∃ r', tickets (step o s) !! m = Some r'
        ∧ r_user_id r' = r_user_id r ∧ r_username r' = r_username r
        ∧ r_created_at r' = r_created_at r.
Proof.
  intros Hr.
  destruct (step_row o s m)
    as [Heq | [[Hnone _] | (r0 & Hr0 & Hcases)]].
  - exists r. by rewrite Heq.
  - congruence.
  - assert (r0 = r) as -> by congruence.
    destruct Hcases as [(c & _ & _ & ->) | [(now & _ & ->)
                       | [(_ & _ & ->) | (now & _ & ->)]]];
      eexists; split; done.
Qed.

(** No store operation deletes a ticket or changes its number, user,
    username or creation time. *)
Theorem tickets_never_deleted (ops : list op) (s : store) (n : Z)
    (t : ticket) :
  get_ticket_by_number n s = Some t →
  ∃ t', get_ticket_by_number n (run ops s) = Some t'
        ∧ ticket_number t' = ticket_number t ∧ user_id t' = user_id t
        ∧ username t' = username t ∧ created_at t' = created_at t.
Proof.
  unfold get_ticket_by_number. revert s t.
  induction ops as [|o ops IH]; intros s t Ht; simpl.
  - exists t. done.
  - destruct (tickets s !! n) as [r|] eqn:Hr; [|done].
    injection Ht as <-.
    destruct (step_keeps_row o s n r Hr) as (r' & Hr' & Hu & Hn & Hc).
    destruct (IH (step o s) (to_ticket n r')) as (t' & Ht' & ? & ? & ? & ?).
    { by rewrite Hr'. }
    exists t'. simpl in *. split_and!; congruence.
Qed.

(** ** [close_ticket] *)

(** [close_ticket now n] looks at no status: whenever ticket [n] exists,
    open, closed or resolved, it returns true and the ticket becomes closed
    with [closed_at] set to [now] and its other columns kept; it returns
    false exactly when the ticket is absent, and then nothing changes. *)
Theorem close_ticket_any_status (now n : Z) (s : store) :
  let s' := (close_ticket now n s).1 in
  let changed := (close_ticket now n s).2 in
  (∀ t, get_ticket_by_number n s = Some t →
        changed = true
        ∧ get_ticket_by_number n s'
          = Some (Ticket n (user_id t) (username t) (channel_id t) Closed
                         (created_at t) (Some now)))
  ∧ (changed = false ↔ get_ticket_by_number n s = None)
  ∧ (changed = false → s' = s)
  ∧ (∀ m, m ≠ n → get_ticket_by_number m s' = get_ticket_by_number m s)
  ∧ counter s' = counter s.
Proof.
  cbv zeta. rewrite close_ticket_unfold. unfold get_ticket_by_number.
  destruct (tickets s !! n) as [r|] eqn:Hn; simpl.
  - split; [|repeat split; try done].
    + intros t [= <-]. by rewrite lookup_insert_eq.
    + intros m Hm. by rewrite lookup_insert_ne.
  - repeat split; done.
Qed.

(** ** [create_ticket] *)

Lemma channel_taken_select (n c : Z) (s : store) :
  channel_taken n c (tickets s)
  ↔ ∃ t, t ∈ select_all s ∧ ticket_number t ≠ n ∧ channel_id t = c.
Proof.
  unfold channel_taken. rewrite map_Exists_lookup. split.
  - intros (k & r & Hk & Hne & Hc). exists (to_ticket k r).
    split; [|done]. apply elem_of_select_all. eauto.
  - intros (t & (r & Hr & ->)%elem_of_select_all & Hne & Hc). simpl in *.
    eauto.
Qed.

(** [create_ticket] always advances the counter by one.  It raises
    [IntegrityError] exactly when some ticket already has the next number
    or the given channel, and then the table is as before (the number is
    lost).  Otherwise it returns the next number, and the ticket read back
    under it is the one given: open, created at [now], [closed_at] null;
    the other tickets are as before. *)
Theorem create_ticket_insert (now uid : Z) (uname : option str) (chan : Z)
    (s : store) :
  let s' := (create_ticket now uid uname chan s).1 in
  let n := counter s + 1 in
  let clash :=
    ∃ t, t ∈ select_all s ∧ (ticket_number t = n ∨ channel_id t = chan) in
  counter s' = n
  ∧ (clash → (create_ticket now uid uname chan s).2 = Raise IntegrityError
             ∧ tickets s' = tickets s)
  ∧ (¬ clash →
     (create_ticket now uid uname chan s).2 = Ok n
     ∧ get_ticket_by_number n s' = Some (Ticket n uid uname chan Open now None)
     ∧ ∀ m, m ≠ n → get_ticket_by_number m s' = get_ticket_by_number m s).
Proof.
  cbv zeta.
  assert ((is_Some (tickets s !! (counter s + 1))
           ∨ channel_taken (counter s + 1) chan (tickets s))
          ↔ ∃ t, t ∈ select_all s
                 ∧ (ticket_number t = counter s + 1 ∨ channel_id t = chan))
    as Hclash.
  { rewrite channel_taken_select. split.
    - intros [[r Hr] | (t & Hin & _ & Hc)].
      + exists (to_ticket (counter s + 1) r). split; [|by left].
        apply elem_of_select_all. eauto.
      + eauto.
    - intros (t & Hin & Hcase).
      destruct (decide (ticket_number t = counter s + 1)) as [Hn|Hn].
      + left. apply elem_of_select_all in Hin as (r & Hr & _).
        rewrite Hn in Hr. eauto.
      + right. exists t. destruct Hcase; [done|]. done. }
  unfold create_ticket. simpl. case_decide as Hd; simpl.
  - split; [done|]. split; [done|]. intros Hno. destruct Hno. by apply Hclash.
  - split; [done|]. split; [intros Hc; destruct Hd; by apply Hclash|].
    intros _. unfold get_ticket_by_number. simpl.
    rewrite lookup_insert_eq. split_and!; try done.
    intros m Hm. by rewrite lookup_insert_ne.
Qed.

(** ** Lookup by channel *)

Lemma get_ticket_by_channel_Some (c : Z) (s : store) (t : ticket) :
  get_ticket_by_channel c s = Some t → t ∈ select_all s ∧ channel_id t = c.
Proof.
  unfold get_ticket_by_channel. intros Hh.
  assert (t ∈ filter (fun t => channel_id t = c) (select_all s)) as Hin.
  { destruct (filter _ (select_all s)) as [|x l]; [done|].
    injection Hh as ->. left. }
  apply list_elem_of_filter in Hin. tauto.
Qed.

Lemma get_ticket_by_channel_None (c : Z) (s : store) :
  get_ticket_by_channel c s = None
  ↔ ∀ t, t ∈ select_all s → channel_id t ≠ c.
Proof.
  unfold get_ticket_by_channel. split.
  - intros Hh t Hin Hc.
    assert (t ∈ filter (fun t => channel_id t = c) (select_all s)) as Hf
      by (apply list_elem_of_filter; done).
    destruct (filter _ (select_all s)); [|done]. by apply elem_of_nil in Hf.
  - intros Hall.
    destruct (filter _ (select_all s)) as [|x l] eqn:Hf; [done|].
    assert (x ∈ filter (fun t => channel_id t = c) (select_all s)) as Hin
      by (rewrite Hf; left).
    apply list_elem_of_filter in Hin as [Hc Hin]. by destruct (Hall x Hin).
Qed.

Lemma NoDup_fmap_on {A B} (f : A → B) (l : list A) (x y : A) :
  NoDup (f <$> l) → x ∈ l → y ∈ l → f x = f y → x = y.
Proof.
  induction l as [|a l IH]; simpl; [by intros _ ?%elem_of_nil|].
  intros [Hnotin Hnd]%NoDup_cons [->|Hx]%elem_of_cons [->|Hy]%elem_of_cons Hf;
    try done.
  - destruct Hnotin. rewrite Hf. by apply list_elem_of_fmap_2.
  - destruct Hnotin. rewrite <- Hf. by apply list_elem_of_fmap_2.
  - by apply IH.
Qed.

Lemma get_ticket_by_channel_unique (c : Z) (s : store) (t : ticket) :
  unique_channels s → t ∈ select_all s → channel_id t = c →
  get_ticket_by_channel c s = Some t.
Proof.
  intros Hu Hin Hc.
  destruct (get_ticket_by_channel c s) as [t'|] eqn:Hg.
  - apply get_ticket_by_channel_Some in Hg as [Hin' Hc'].
    f_equal. apply (NoDup_fmap_on channel_id (select_all s)); try done.
    congruence.
  - rewrite get_ticket_by_channel_None in Hg. by destruct (Hg t Hin).
Qed.

(** [get_ticket_by_channel] returns a ticket of the store on that channel,
    and [None] exactly when no ticket is on it; when the channels of the
    store are pairwise distinct, it returns the ticket on that channel. *)
Theorem get_ticket_by_channel_spec (c : Z) (s : store) :
  (∀ t, get_ticket_by_channel c s = Some t →
        t ∈ select_all s ∧ channel_id t = c)
  ∧ (get_ticket_by_channel c s = None
     ↔ ∀ t, t ∈ select_all s → channel_id t ≠ c)
  ∧ (unique_channels s →
     ∀ t, t ∈ select_all s → channel_id t = c →
          get_ticket_by_channel c s = Some t).
Proof.
  split; [apply get_ticket_by_channel_Some|].
  split; [apply get_ticket_by_channel_None|].
  intros Hu t Hin Hc.
  destruct (get_ticket_by_channel c s) as [t'|] eqn:Hg.
  - apply get_ticket_by_channel_Some in Hg as [Hin' Hc'].
    f_equal. apply (NoDup_fmap_on channel_id (select_all s)); try done.
    congruence.
  - rewrite get_ticket_by_channel_None in Hg. by destruct (Hg t Hin).
Qed.

(** ** Invariants of the table *)

Lemma to_ticket_inj n r m r' : to_ticket n r = to_ticket m r' → n = m ∧ r = r'.
Proof. destruct r, r'. unfold to_ticket. simpl. intros [=]. by subst. Qed.

Lemma NoDup_select_all (s : store) : NoDup (select_all s).
Proof.
  unfold select_all. apply NoDup_fmap_2_strong; [|apply NoDup_map_to_list].
  intros [k r] [k' r'] _ _ H. simpl in H.
  by apply to_ticket_inj in H as [-> ->].
Qed.

(** Distinctness of a key over the selected tickets, read on the rows. *)
Lemma NoDup_key_rows (P : ticket → Prop) `{!∀ t, Decision (P t)}
    (f : ticket → Z) (s : store) :
  NoDup (f <$> filter P (select_all s))
  ↔ ∀ n m r r',
      tickets s !! n = Some r → tickets s !! m = Some r' →
      P (to_ticket n r) → P (to_ticket m r') →
      f (to_ticket n r) = f (to_ticket m r') → n = m.
Proof.
  split.
  - intros Hnd n m r r' Hn Hm Pn Pm Hf.
    assert (to_ticket n r = to_ticket m r') as [? _]%to_ticket_inj; [|done].
    apply (NoDup_fmap_on f (filter P (select_all s))); try done;
      apply list_elem_of_filter; (split; [done|]);
      apply elem_of_select_all; eauto.
  - intros Hinj. apply NoDup_fmap_2_strong.
    + intros t t' [Pt (r & Hr & Ht)%elem_of_select_all]%list_elem_of_filter
        [Pt' (r' & Hr' & Ht')%elem_of_select_all]%list_elem_of_filter Hf.
      rewrite Ht, Ht' in *. simpl in *.
      assert (ticket_number t = ticket_number t') as Heq by eauto.
      rewrite Heq in *. congruence.
    + apply NoDup_filter, NoDup_select_all.
Qed.

Lemma unique_channels_rows (s : store) :
  unique_channels s
  ↔ ∀ n m r r', tickets s !! n = Some r → tickets s !! m = Some r' →
                r_channel_id r = r_channel_id r' → n = m.
Proof.
  unfold unique_channels.
  replace (select_all s) with (filter (fun _ => True) (select_all s)).
  - rewrite (NoDup_key_rows (fun _ => True) channel_id s). simpl. naive_solver.
  - induction (select_all s) as [|t l IH]; [done|].
    rewrite filter_cons_True by done. by rewrite IH.
Qed.

Lemma one_open_per_user_rows (s : store) :
  one_open_per_user s
  ↔ ∀ n m r r', tickets s !! n = Some r → tickets s !! m = Some r' →
                r_status r = Open → r_status r' = Open →
                r_user_id r = r_user_id r' → n = m.
Proof. unfold one_open_per_user. by rewrite (NoDup_key_rows is_open user_id s). Qed.

Lemma channel_taken_row (n c : Z) (m : gmap Z row) (k : Z) (r : row) :
  m !! k = Some r → k ≠ n → r_channel_id r = c → channel_taken n c m.
Proof. intros Hk Hne Hc. apply map_Exists_lookup. eauto. Qed.

Lemma step_unique_channels (o : op) (s : store) :
  unique_channels s → unique_channels (step o s).
Proof.
  rewrite !unique_channels_rows. intros Hu n m r r' Hn Hm Hc.
  destruct (decide (n = m)) as [|Hne]; [done|exfalso].
  destruct (step_row o s n)
    as [En | [(Nn & now & uid & una & ch & Eon & Enn & Tn & Rn)
             | (rn & Hrn & Cn)]];
    destruct (step_row o s m)
      as [Em | [(Nm & now' & uid' & una' & ch' & Eom & Emm & Tm & Rm)
               | (rm & Hrm & Cm)]].
  - rewrite En in Hn. rewrite Em in Hm. eauto.
  - rewrite En in Hn. rewrite Rm in Hm. injection Hm as <-. simpl in Hc.
    apply Tm. by apply (channel_taken_row m _ (tickets s) n r).
  - rewrite En in Hn.
    destruct Cm as [(c & _ & Tm & Rm) | [(? & _ & Rm)
                   | [(_ & _ & Rm) | (? & _ & Rm)]]];
      rewrite Rm in Hm; injection Hm as <-; simpl in Hc; try (by eauto).
    apply Tm. by apply (channel_taken_row m _ (tickets s) n r).
  - rewrite Em in Hm. rewrite Rn in Hn. injection Hn as <-. simpl in Hc.
    apply Tn. by apply (channel_taken_row n _ (tickets s) m r').
  - congruence.
  - destruct Cm as [(c & ? & _) | [(? & ? & _) | [(? & _) | (? & ? & _)]]];
      congruence.
  - rewrite Em in Hm.
    destruct Cn as [(c & _ & Tn & Rn) | [(? & _ & Rn)
                   | [(_ & _ & Rn) | (? & _ & Rn)]]];
      rewrite Rn in Hn; injection Hn as <-; simpl in Hc; try (by eauto).
    apply Tn. by apply (channel_taken_row n _ (tickets s) m r').
  - destruct Cn as [(c & ? & _) | [(? & ? & _) | [(? & _) | (? & ? & _)]]];
      congruence.
  - destruct Cn as [(c & ? & _) | [(? & ? & _) | [(? & _) | (? & ? & _)]]];
      destruct Cm as [(c' & ? & _) | [(? & ? & _) | [(? & _) | (? & ? & _)]]];
      congruence.
Qed.

(** The [UNIQUE] constraint on [channel_id] holds through every sequence of
    store operations: when no two tickets share a channel before, no two
    share one after. *)
Theorem channels_stay_unique (ops : list op) (s : store) :
  unique_channels s → unique_channels (run ops s).
Proof.
  revert s. induction ops as [|o ops IH]; intros s Hs; simpl; [done|].
  by apply IH, step_unique_channels.
Qed.

Lemma run_unique_channels (ops : list op) (s : store) :
  unique_channels s → unique_channels (run ops s).
Proof.
  revert s. induction ops as [|o ops IH]; intros s Hs; simpl; [done|].
  by apply IH, step_unique_channels.
Qed.

Lemma step_numbers_bounded (o : op) (s : store) :
  numbers_bounded s → numbers_bounded (step o s).
Proof.
  intros Hb m r Hm. pose proof (counter_step o s) as Hle.
  destruct (step_row o s m)
    as [Em | [(_ & now & uid & una & ch & Eo & Emm & _)
             | (rm & Hrm & _)]].
  - rewrite Em in Hm. specialize (Hb m r Hm). simpl in *. lia.
  - subst o m. cbn [step]. unfold create_ticket. simpl.
    case_decide; simpl; lia.
  - specialize (Hb m rm Hrm). simpl in *. lia.
Qed.

Lemma run_numbers_bounded (ops : list op) (s : store) :
  numbers_bounded s → numbers_bounded (run ops s).
Proof.
  revert s. induction ops as [|o ops IH]; intros s Hs; simpl; [done|].
  by apply IH, step_numbers_bounded.
Qed.

(** When no ticket number is above the counter, that stays so through every
    sequence of store operations, and then the next number is always free:
    [create_ticket] raises exactly when the channel it is given is already
    some ticket's channel. *)
Theorem numbers_stay_bounded (ops : list op) (s : store) :
  numbers_bounded s →
  numbers_bounded (run ops s)
  ∧ ∀ now uid uname chan,
      (create_ticket now uid uname chan (run ops s)).2 = Raise IntegrityError
      ↔ ∃ t, t ∈ select_all (run ops s) ∧ channel_id t = chan.
Proof.
  intros Hb%(run_numbers_bounded ops). split; [done|].
  intros now uid uname chan. set (s' := run ops s) in *.
  assert (tickets s' !! (counter s' + 1) = None) as Hfree.
  { destruct (tickets s' !! (counter s' + 1)) as [r|] eqn:Hr; [|done].
    specialize (Hb _ _ Hr). simpl in Hb. lia. }
  unfold create_ticket. simpl. split.
  - case_decide as Hd; [|done]. intros _.
    destruct Hd as [[r Hr] | Ht]; [congruence|].
    apply channel_taken_select in Ht as (t & Hin & _ & Hc). eauto.
  - intros (t & Hin & Hc). rewrite decide_True; [done|]. right.
    apply channel_taken_select. exists t. split_and!; try done.
    apply elem_of_select_all in Hin as (r & Hr & _). intros Hn.
    rewrite Hn in Hr. congruence.
Qed.

(** ** One open ticket per user *)

Lemma step_open_row (o : op) (s : store) (n : Z) (r : row) :
  keeps_one_open o = true →
  tickets (step o s) !! n = Some r → r_status r = Open →
  ∃ r0, tickets s !! n = Some r0 ∧ r_status r0 = Open
        ∧ r_user_id r0 = r_user_id r.
Proof.
  intros Ho Hn Hst.
  destruct (step_row o s n)
    as [En | [(_ & now & uid & una & ch & Eo & _) | (r0 & Hr0 & Cn)]].
  - rewrite En in Hn. eauto.
  - by subst o.
  - destruct Cn as [(c & _ & _ & Rn) | [(? & _ & Rn)
                   | [(Eo & _) | (? & _ & Rn)]]];
      [| |by subst o|]; rewrite Rn in Hn; injection Hn as <-;
      simpl in *; try done. eauto.
Qed.

Lemma step_one_open (o : op) (s : store) :
  keeps_one_open o = true → one_open_per_user s → one_open_per_user (step o s).
Proof.
  rewrite !one_open_per_user_rows. intros Ho Hs n m r r' Hn Hm Hr Hr' Hu.
  destruct (step_open_row o s n r Ho Hn Hr) as (r0 & ? & ? & ?).
  destruct (step_open_row o s m r' Ho Hm Hr') as (r0' & ? & ? & ?).
  apply (Hs n m r0 r0'); congruence.
Qed.

(** [get_next_ticket_number], the channel backfill, [close_ticket] and
    [resolve_ticket] never give a user a second open ticket: when no user
    has two open tickets before a sequence of them, none has after. *)
Theorem one_open_kept (ops : list op) (s : store) :
  forallb keeps_one_open ops = true →
  one_open_per_user s → one_open_per_user (run ops s).
Proof.
  revert s. induction ops as [|o ops IH]; intros s Hops Hs; simpl; [done|].
  simpl in Hops. apply andb_prop in Hops as [Ho Hops].
  by apply IH, step_one_open.
Qed.

(** What [create_ticket_channel] leaves in the table, whatever happens: the
    table as it was, or the table with one new open row of that user under
    the next number. *)
Lemma create_ticket_channel_table admin now topic delivery uid uname msg w :
  let w1 := (create_ticket_channel admin now topic delivery uid uname msg w).1 in
  let n := counter (db w) + 1 in
  tickets (db w1) = tickets (db w)
  ∨ (get_ticket_by_user uid (of_string "open") (db w) = None
     ∧ tickets (db w) !! n = None
     ∧ ∃ c, tickets (db w1)
            = <[n := Row uid uname c Open now None]> (tickets (db w))).
Proof.
  cbv zeta. unfold create_ticket_channel, create_ticket_channel_try. unfold_M.
  destruct (get_ticket_by_user uid (of_string "open") (db w)) as [t|] eqn:Hg;
    [by left|].
  destruct (create_ticket now uid uname 0 (db w)) as [s1 [n|e]] eqn:Hc.
  2: { apply create_ticket_raise in Hc as (_ & Hs1 & _). by left. }
  apply create_ticket_spec in Hc as (-> & _ & Hfresh & Hs1 & _).
  right. split; [done|]. split; [done|].
  assert (∀ c, ∃ c', tickets (_update_ticket_channel (counter (db w) + 1) c s1).1
                     = <[counter (db w) + 1 := Row uid uname c' Open now None]>
                         (tickets (db w))) as Hupd.
  { intros c. rewrite _update_ticket_channel_unfold, Hs1, lookup_insert_eq.
    case_decide; simpl; [by eexists|]. exists c. by rewrite insert_insert_eq. }
  destruct topic as [c|[|m|]]; simpl; try (by eexists);
    match goal with
    | |- context [_update_ticket_channel ?k ?c s1] =>
      destruct (Hupd c) as [c' Hc'];
      destruct (_update_ticket_channel k c s1) as [s2 [[]|e]]; simpl in *
    end;
    try (by eexists);
    case_decide; destruct delivery as [[]|[|m'|]]; simpl; by eexists.
Qed.

(** [create_ticket_channel] never gives a user a second open ticket,
    whatever the transport answers and whether it succeeds or not. *)
Theorem create_ticket_channel_keeps_one_open (admin now : Z) (topic : res Z)
    (delivery : res unit) (uid : Z) (uname : option str) (msg : str)
    (w : world) :
  one_open_per_user (db w) →
  one_open_per_user
    (db (create_ticket_channel admin now topic delivery uid uname msg w).1).
Proof.
  rewrite !one_open_per_user_rows. intros Hs.
  destruct (create_ticket_channel_table admin now topic delivery uid uname
              msg w) as [-> | (Hg & Hfresh & c & ->)]; [done|].
  assert (∀ k r, tickets (db w) !! k = Some r → r_status r = Open →
                 r_user_id r ≠ uid) as Hnone.
  { intros k r Hk Hst Hu.
    apply (get_ticket_by_user_None _ _ _ Hg (to_ticket k r)).
    - apply elem_of_select_all. eauto.
    - simpl. rewrite Hst. done. }
  intros n m r r' Hn Hm Hr Hr' Hu.
  destruct (decide (n = counter (db w) + 1)) as [->|Hn1];
    destruct (decide (m = counter (db w) + 1)) as [->|Hm1]; try done.
  - rewrite lookup_insert_eq in Hn. rewrite lookup_insert_ne in Hm by done.
    injection Hn as <-. simpl in Hu. destruct (Hnone m r' Hm Hr'). done.
  - rewrite lookup_insert_eq in Hm. rewrite lookup_insert_ne in Hn by done.
    injection Hm as <-. simpl in Hu. destruct (Hnone n r Hn Hr). done.
  - rewrite lookup_insert_ne in Hn, Hm by done. eauto.
Qed.

(** [reopen_ticket] does not look for another open ticket of the user: with
    a closed ticket [n] and an open ticket [m] of the same user, it opens [n]
    and leaves [m] open, so the user has two open tickets. *)
Theorem reopen_ticket_second_open (n m : Z) (s : store) (t t' : ticket) :
  get_ticket_by_number n s = Some t → status t = Closed →
  get_ticket_by_number m s = Some t' → status t' = Open →
  user_id t = user_id t' →
  let s' := (reopen_ticket n s).1 in
  (reopen_ticket n s).2 = true
  ∧ status <$> get_ticket_by_number n s' = Some Open
  ∧ get_ticket_by_number m s' = Some t'
  ∧ ¬ one_open_per_user s'.
Proof.
  unfold get_ticket_by_number. intros Ht Hst Ht' Hst' Hu. cbv zeta.
  rewrite reopen_ticket_unfold.
  destruct (tickets s !! n) as [r|] eqn:Hn; [|done].
  destruct (tickets s !! m) as [r'|] eqn:Hm; [|done].
  injection Ht as <-. injection Ht' as <-. simpl in *.
  assert (n ≠ m) as Hne by (intros ->; congruence).
  rewrite decide_True by done. simpl.
  rewrite lookup_insert_eq, lookup_insert_ne, Hm by done.
  split_and!; try done.
  rewrite one_open_per_user_rows. intros Hone. apply Hne.
  apply (Hone n m (set_status Open None r) r'); simpl; try done.
  - by rewrite lookup_insert_eq.
  - by rewrite lookup_insert_ne.
Qed.

(** ** The channel backfill *)

(** [_update_ticket_channel n c] on a missing ticket does nothing and
    raises nothing.  On an existing ticket it raises [IntegrityError], and
    changes nothing, exactly when another ticket is on channel [c];
    otherwise the ticket gets channel [c] and keeps its other columns, the
    lookup by channel [c] then finds it, and doing the same backfill again
    succeeds and changes nothing.  No other ticket is touched. *)
Theorem update_ticket_channel_backfill (n c : Z) (s : store) :
  let s' := (_update_ticket_channel n c s).1 in
  let result := (_update_ticket_channel n c s).2 in
  let taken :=
    ∃ t', t' ∈ select_all s ∧ ticket_number t' ≠ n ∧ channel_id t' = c in
  (get_ticket_by_number n s = None → s' = s ∧ result = Ok tt)
  ∧ (∀ t, get_ticket_by_number n s = Some t →
       (taken → result = Raise IntegrityError ∧ s' = s)
       ∧ (¬ taken →
          let t1 := Ticket n (user_id t) (username t) c (status t)
                           (created_at t) (closed_at t) in
          result = Ok tt
          ∧ get_ticket_by_number n s' = Some t1
          ∧ get_ticket_by_channel c s' = Some t1
          ∧ _update_ticket_channel n c s' = (s', Ok tt)))
  ∧ (∀ m, m ≠ n → get_ticket_by_number m s' = get_ticket_by_number m s).
Proof.
  cbv zeta. rewrite _update_ticket_channel_unfold.
  unfold get_ticket_by_number.
  destruct (tickets s !! n) as [r|] eqn:Hn; simpl; [|done].
  split; [done|]. split.
  - intros t [= <-]. simpl.
    case_decide as Hd; simpl.
    + split; [done|]. intros Hno. destruct Hno. by apply channel_taken_select.
    + split; [intros Ht; destruct Hd; by apply channel_taken_select|].
      intros _. rewrite lookup_insert_eq. simpl. split_and!; try done.
      * set (s' := Store (counter s) (<[n := set_channel c r]> (tickets s))).
        assert (to_ticket n (set_channel c r) ∈ select_all s') as Hin.
        { apply elem_of_select_all. simpl. rewrite lookup_insert_eq. eauto. }
        destruct (get_ticket_by_channel c s') as [t'|] eqn:Hg.
        -- apply get_ticket_by_channel_Some in Hg
             as [(r' & Hr' & Heq)%elem_of_select_all Hc].
           subst s'. simpl in Hr'. f_equal. rewrite Heq in Hc |- *.
           simpl in Hc.
           destruct (decide (ticket_number t' = n)) as [Hk|Hne].
           ++ rewrite Hk in Hr' |- *. rewrite lookup_insert_eq in Hr'.
              by injection Hr' as <-.
           ++ rewrite lookup_insert_ne in Hr' by done. destruct Hd.
              by apply (channel_taken_row n c (tickets s) (ticket_number t') r').
        -- rewrite get_ticket_by_channel_None in Hg. by destruct (Hg _ Hin).
      * rewrite _update_ticket_channel_unfold. simpl.
        rewrite lookup_insert_eq. rewrite decide_False.
        -- unfold set_channel. simpl. by rewrite insert_insert_eq.
        -- intros (k & r' & Hk & Hne & Hc)%map_Exists_lookup.
           rewrite lookup_insert_ne in Hk by done. destruct Hd.
           by apply (channel_taken_row n c (tickets s) k r').
  - intros m Hm. case_decide; simpl; [done|]. by rewrite lookup_insert_ne.
Qed.

(** ** Closing through the ticket manager *)

(** The name the manager gives a closed ticket's topic. *)
Lemma close_ticket_channel_unfold admin now rename n w :
  close_ticket_channel admin LOCAL now rename n w =
  match get_ticket_by_number n (db w) with
  | None => (w, Ok false)
  | Some t =>
    (World (close_ticket now n (db w)).1
       (calls w ++
        [edit_forum_topic admin (channel_id t)
           (_sanitize_channel_name
              (if truthy (username t)
               then of_string "CLOSED #" ++ str_of_Z n ++ of_string " - @"
                    ++ or_empty (username t)
               else of_string "CLOSED #" ++ str_of_Z n ++ of_string " - "
                    ++ str_of_Z (user_id t)))]),
     Ok true)
  end.
Proof.
  unfold close_ticket_channel, load_ticket, bind, execute_ok.
  destruct (get_ticket_by_number n (db w)) as [t|] eqn:Ht; [|done].
  rewrite close_ticket_unfold. unfold get_ticket_by_number in Ht.
  destruct (tickets (db w) !! n) as [r|]; [|done]. simpl.
  unfold except_Exception, except_TelegramError, await, ret. simpl.
  by destruct rename as [[]|[]].
Qed.


(** ** The sanitizer, again *)

Lemma filter_all {A} (P : A → Prop) `{!∀ x, Decision (P x)} (l : list A) :
  (∀ x, x ∈ l → P x) → filter P l = l.
Proof.
  induction l as [|a l IH]; intros Hall; [done|].
  rewrite filter_cons_True by (apply Hall; left).
  rewrite IH; [done|]. intros x Hx. apply Hall. by right.
Qed.

Lemma sanitize_clean (name : str) :
  (∀ x, x ∈ _sanitize_channel_name name → x ∉ invalid_chars)
  ∧ (length (_sanitize_channel_name name) ≤ 128)%nat.
Proof.
  unfold _sanitize_channel_name. rewrite foldl_replace.
  set (stripped := filter (fun x => x ∉ invalid_chars) name).
  assert (∀ x, x ∈ stripped → x ∉ invalid_chars) as Hclean.
  { intros x Hin. by apply list_elem_of_filter in Hin as [Hn _]. }
  case_decide as Hlong; [|split; [done|lia]]. split.
  - intros x [Hin|Hin]%elem_of_app.
    + apply Hclean. by eapply subseteq_take.
    + revert Hin. unfold invalid_chars. vm_compute of_string.
      rewrite !elem_of_cons, !elem_of_nil. intros H1 H2.
      destruct H2 as [->|[->|[->|[->|[->|[]]]]]]; intuition discriminate.
  - rewrite length_app, length_take. vm_compute (length (of_string "...")).
    lia.
Qed.

(** Sanitizing a sanitized name changes nothing. *)
Theorem sanitize_idempotent (name : str) :
  _sanitize_channel_name (_sanitize_channel_name name)
  = _sanitize_channel_name name.
Proof.
  destruct (sanitize_clean name) as [Hclean Hlen].
  set (r := _sanitize_channel_name name) in *.
  unfold _sanitize_channel_name at 1. rewrite foldl_replace.
  rewrite filter_all by done. rewrite decide_False by lia. done.
Qed.

(** ** Ticket creation and the store *)

(** What [create_ticket_channel] does to the database is what a sequence of
    store operations does. *)
Lemma create_ticket_channel_as_ops admin now topic delivery uid uname msg w :
  ∃ ops,
    db (create_ticket_channel admin now topic delivery uid uname msg w).1
    = run ops (db w).
Proof.
  unfold create_ticket_channel, create_ticket_channel_try. unfold_M.
  destruct (get_ticket_by_user uid (of_string "open") (db w)) as [t|];
    [by exists []|].
  destruct (create_ticket now uid uname 0 (db w)) as [s1 [n|e]] eqn:Hc.
  2: { exists [OpCreate now uid uname 0]. simpl. by rewrite Hc. }
  assert (∀ c, (_update_ticket_channel n c s1).1
               = run [OpCreate now uid uname 0; OpUpdateChannel n c] (db w))
    as Hupd by (intros c; simpl; by rewrite Hc).
  destruct topic as [c|[|m|]]; simpl;
    try (exists [OpCreate now uid uname 0]; simpl; by rewrite Hc);
    match goal with
    | |- context [_update_ticket_channel n ?c s1] =>
      exists [OpCreate now uid uname 0; OpUpdateChannel n c];
      rewrite <- (Hupd c);
      destruct (_update_ticket_channel n c s1) as [s2 [[]|e]]; simpl;
      [|done]
    end;
    case_decide; destruct delivery as [[]|[|m'|]]; simpl; done.
Qed.

(** Whatever happens in [create_ticket_channel], the store keeps distinct
    channels, ticket numbers not above the counter, and [closed_at] coupled
    with the status, when it had them. *)
Theorem create_ticket_channel_keeps_store (admin now : Z) (topic : res Z)
    (delivery : res unit) (uid : Z) (uname : option str) (msg : str)
    (w : world) :
  let s' := db (create_ticket_channel admin now topic delivery uid uname
                  msg w).1 in
  (unique_channels (db w) → unique_channels s')
  ∧ (numbers_bounded (db w) → numbers_bounded s')
  ∧ (store_coupled (db w) → store_coupled s').
Proof.
  cbv zeta.
  destruct (create_ticket_channel_as_ops admin now topic delivery uid uname
              msg w) as [ops ->].
  split_and!.
  - apply run_unique_channels.
  - apply run_numbers_bounded.
  - apply run_coupled.
Qed.

Lemma get_ticket_by_user_inserted uid uname c now n (s s' : store) :
  get_ticket_by_user uid (of_string "open") s = None →
  tickets s' = <[n := Row uid uname c Open now None]> (tickets s) →
  get_ticket_by_user uid (of_string "open") s'
  = Some (Ticket n uid uname c Open now None).
Proof.
  intros Hg Hs'.
  set (new := to_ticket n (Row uid uname c Open now None)).
  assert (new ∈ select_all s') as Hnew.
  { apply elem_of_select_all. eexists. simpl. rewrite Hs'.
    by rewrite lookup_insert_eq. }
  destruct (get_ticket_by_user_is_Some uid (of_string "open") s' new)
    as [t Ht]; [done..|].
  rewrite Ht. f_equal.
  apply get_ticket_by_user_Some in Ht as (Hin & Hu & Hst & _).
  apply elem_of_select_all in Hin as (r & Hr & Heq). rewrite Hs' in Hr.
  destruct (decide (ticket_number t = n)) as [Hn|Hn].
  - rewrite Hn in Hr, Heq. rewrite lookup_insert_eq in Hr.
    injection Hr as <-. exact Heq.
  - rewrite lookup_insert_ne in Hr by done.
    destruct (get_ticket_by_user_None _ _ _ Hg t); [|done].
    apply elem_of_select_all. eauto.
Qed.

(** After a successful [create_ticket_channel] in a store with distinct
    channels, both lookups of the relay lead to the returned ticket: the
    user's open ticket and the ticket on the returned channel are one
    ticket of the store, with the returned number. *)
Theorem create_ticket_channel_routes (admin now : Z) (topic : res Z)
    (delivery : res unit) (uid : Z) (uname : option str) (msg : str)
    (w w1 : world) (info : ticket + ticket_info) :
  unique_channels (db w) →
  create_ticket_channel admin now topic delivery uid uname msg w
  = (w1, Some info) →
  ∃ t, get_user_ticket uid (db w1) = Some t
       ∧ get_ticket_info (info_channel_id info) (db w1) = Some t
       ∧ ticket_number t = info_ticket_number info
       ∧ user_id t = uid ∧ status t = Open.
Proof.
  intros Hu Hcall. unfold get_user_ticket, get_ticket_info.
  destruct (get_ticket_by_user uid (of_string "open") (db w)) as [t|] eqn:Hg.
  - rewrite (create_ticket_channel_existing _ _ _ _ _ _ _ _ _ Hg) in Hcall.
    simplify_eq. exists t. simpl.
    pose proof Hg as (Hin & ? & Hst%status_name_open & _)%get_ticket_by_user_Some.
    split_and!; try done. by apply get_ticket_by_channel_unique.
  - assert (unique_channels (db w1)) as Hu1.
    { destruct (create_ticket_channel_as_ops admin now topic delivery uid
                  uname msg w) as [ops Hops].
      rewrite Hcall in Hops. simpl in Hops. rewrite Hops.
      by apply run_unique_channels. }
    destruct (create_ticket_channel_created _ _ _ _ _ _ _ _ _ _ Hg Hcall)
      as (n & -> & _ & _ & Hs1).
    eexists. split; [by eapply get_ticket_by_user_inserted|]. simpl.
    split_and!; try done.
    apply get_ticket_by_channel_unique; [done| |done].
    apply elem_of_select_all. eexists. simpl. rewrite Hs1.
    by rewrite lookup_insert_eq.
Qed.

(** ** The admin-side relay, again *)

Lemma lstrip_spaces (s : str) : Forall (fun c => is_space c = true) s → lstrip s = [].
Proof.
  induction 1 as [|c s Hc _ IH]; [done|]. simpl. by rewrite Hc.
Qed.

(** A command, a message without text and a message of white space only
    are dropped before any lookup: whatever the ticket behind the channel,
    the handler calls nothing, changes nothing and returns normally. *)
Theorem handle_admin_message_skips (lower : str -> str)
    (delivery reply : res unit) (m : message) (w : world) :
  startswith (of_string "/") (default [] (text m)) = true
  ∨ Forall (fun c => is_space c = true) (default [] (text m)) →
  handle_admin_message lower delivery reply (Some m) w = (w, Ok tt).
Proof.
  intros Hskip. unfold handle_admin_message.
  destruct (chat m) as [chat_id|]; [|done].
  destruct Hskip as [-> | Hblank]; [done|].
  destruct (startswith _ _); [done|].
  unfold strip. rewrite (lstrip_spaces _ Hblank). simpl.
  by rewrite orb_true_r.
Qed.

(** The handler never writes to the database, makes at most two transport
    calls, and raises only what the delivery to the user raised when that
    is not a [TelegramError]. *)
Theorem handle_admin_message_effects (lower : str -> str)
    (delivery reply : res unit) (update_message : option message)
    (w : world) :
  let result := handle_admin_message lower delivery reply update_message w in
  db result.1 = db w
  ∧ (∃ new, calls result.1 = calls w ++ new ∧ (length new ≤ 2)%nat)
  ∧ (∀ e, result.2 = Raise e → delivery = Raise e ∧ fatal delivery).
Proof.
  cbv zeta. unfold handle_admin_message.
  assert (∀ w', (w', Ok tt) = (w, Ok tt) →
            db (w', @Ok unit tt).1 = db w
            ∧ (∃ new, calls (w', @Ok unit tt).1 = calls w ++ new
                      ∧ (length new ≤ 2)%nat)
            ∧ (∀ e, (w', @Ok unit tt).2 = Raise e
                    → delivery = Raise e ∧ fatal delivery)) as Hnothing.
  { intros w' [= ->]. simpl. split_and!; try done.
    exists []. rewrite app_nil_r. simpl. split; [done|lia]. }
  destruct update_message as [m|]; [|by apply Hnothing].
  destruct (chat m) as [chat_id|]; [|by apply Hnothing].
  destruct (startswith _ _); [by apply Hnothing|].
  destruct (_ || _); [by apply Hnothing|].
  unfold bind, query.
  destruct (get_ticket_info _ (db w)) as [t|]; [|by apply Hnothing].
  case_decide; [by apply Hnothing|].
  unfold except_TelegramError, except_Exception, await, ret.
  destruct delivery as [[]|[|msg|]]; simpl.
  - split_and!; try done. eexists [_]. simpl. split; [done|lia].
  - split_and!; [done| |by intros e [= <-]].
    eexists [_]. simpl. split; [done|lia].
  - destruct reply as [[]|e']; simpl; (split_and!; [done| |done]);
      eexists [_; _]; rewrite <- app_assoc; simpl; (split; [done|lia]).
  - split_and!; [done| |by intros e [= <-]].
    eexists [_]. simpl. split; [done|lia].
Qed.

(** With an open ticket behind the channel, a message that is neither a
    command nor blank goes to the ticket's user, verbatim.  When that
    delivery fails with a [TelegramError], the admin gets the diagnostic as
    a reply and the handler returns normally whatever becomes of the reply;
    nothing else is sent in either case. *)
Theorem handle_admin_message_delivery (lower : str -> str)
    (delivery reply : res unit) (m : message) (chat_id : Z) (body : str)
    (t : ticket) (w : world) :
  chat m = Some chat_id → text m = Some body →
  startswith (of_string "/") body = false →
  nonempty (strip body) = true →
  get_ticket_info (channel_of (message_thread_id m) chat_id) (db w) = Some t →
  status t = Open →
  let sent := send_message (user_id t) body None
                (Some (of_string "Markdown")) in
  handle_admin_message lower delivery reply (Some m) w
  = match delivery with
    | Raise (TelegramError e) =>
      (World (db w) (calls w ++ [sent; reply_text (error_msg lower e)]), Ok tt)
    | _ => (World (db w) (calls w ++ [sent]), delivery)
    end.
Proof.
  intros Hchat Htext Hcmd Hblank Ht Hst. unfold handle_admin_message.
  rewrite Hchat, Htext. cbv [default from_option id]. rewrite Hcmd, Hblank.
  assert (nonempty body = true) as -> by (by destruct body).
  cbn [negb orb]. unfold bind, query. rewrite Ht. rewrite decide_False
    by (rewrite Hst; intros [?|?]; done).
  unfold except_TelegramError, except_Exception, await, ret. simpl.
  destruct delivery as [[]|[|msg|]]; simpl; try done.
  destruct reply as [[]|e]; simpl; by rewrite <- app_assoc.
Qed.

(** ** The user's messages *)

Ltac unfold_H :=
  unfold hbind, hret, read, update_db, manager, perform, catch_TelegramError,
    catch_Exception, set_pending, get_pending, pop_pending.

(** A private message never creates or changes a ticket.  From a user with
    an open ticket it goes to the admin group, into the ticket's topic
    unless the ticket's channel is the group itself, and the pending
    messages stay as they are; the only further call is the apology to the
    user when the transport refuses the message.  From a user without an
    open ticket it reaches no admin: it replaces that user's pending
    message, and the one transport call is the reply to the user. *)
Theorem handle_user_message_spec (admin : Z) (delivery reply : res unit)
    (m : private_message) (u : user) (σ : session) :
  pm_from_user m = Some u →
  let result := handle_user_message admin delivery reply (Some m) σ in
  let body := default [] (pm_text m) in
  s_db result.1 = s_db σ
  ∧ match get_user_ticket (u_id u) (s_db σ) with
    | Some t =>
      let thread :=
        if decide (channel_id t = admin) then None
        else Some (channel_id t) in
      let sent :=
        Bot (send_message admin (at_user u ++ of_string ": " ++ body)
               thread None) in
      s_pending result.1 = s_pending σ
      ∧ ∃ more,
          s_events result.1 = s_events σ ++ sent :: more
          ∧ match delivery with
            | Raise (TelegramError _) =>
              ∃ apology, more = [message_reply_text apology None None]
                         ∧ result.2 = reply
            | _ => more = [] ∧ result.2 = delivery
            end
    | None =>
      s_pending result.1 = <[u_id u := body]> (s_pending σ)
      ∧ result.2 = reply
      ∧ ∃ prompt keyboard,
          s_events result.1
          = s_events σ ++ [message_reply_text prompt (Some keyboard) None]
    end.
Proof.
  intros Hu. cbv zeta. unfold handle_user_message. rewrite Hu. unfold_H.
  destruct (get_user_ticket (u_id u) (s_db σ)) as [t|]; simpl.
  - case_decide as Hc.
    + rewrite decide_False by done.
      destruct delivery as [[]|[|e|]]; simpl; split_and!; try done;
        eexists; (split; [try done|]); try done.
      * by rewrite <- app_assoc.
      * by eexists.
    + rewrite decide_True by (by destruct (decide (channel_id t = admin))).
      destruct delivery as [[]|[|e|]]; simpl; split_and!; try done;
        eexists; (split; [try done|]); try done.
      * by rewrite <- app_assoc.
      * by eexists.
  - split_and!; try done. by eexists _, _.
Qed.

(** ** The admin's close command *)

Lemma hbind_ok {A B} (m : H A) (k : A → H B) (σ σ' : session) (a : A) :
  m σ = (σ', Ok a) → hbind m k σ = k a σ'.
Proof. unfold hbind. by intros ->. Qed.

Lemma hbind_raise {A B} (m : H A) (k : A → H B) (σ σ' : session) (e : exn) :
  m σ = (σ', Raise e) → hbind m k σ = (σ', Raise e).
Proof. unfold hbind. by intros ->. Qed.

Lemma get_ticket_by_number_of_select (t : ticket) (s : store) :
  t ∈ select_all s → get_ticket_by_number (ticket_number t) s = Some t.
Proof. intros Hin. by apply get_ticket_by_number_select. Qed.

(** [close_ticket_channel] inside a handler, on the SQLite backend. *)
Lemma manager_close (admin now : Z) (rename : res unit) (n : Z) (σ : session) :
  ∃ evs,
    manager (close_ticket_channel admin LOCAL now rename n) σ
    = (Session (close_ticket now n (s_db σ)).1 (s_events σ ++ evs)
               (s_pending σ),
       Ok (bool_decide (is_Some (get_ticket_by_number n (s_db σ)))))
    ∧ match get_ticket_by_number n (s_db σ) with
      | None => evs = []
      | Some t => ∃ name, evs = [Bot (edit_forum_topic admin (channel_id t) name)]
      end.
Proof.
  unfold manager. rewrite close_ticket_channel_unfold. cbn [db calls].
  destruct (get_ticket_by_number n (s_db σ)) as [t|] eqn:Ht.
  - eexists. split; [|by eexists]. cbn [db calls app fmap list_fmap].
    by rewrite bool_decide_eq_true_2.
  - exists []. split; [|done]. cbn [db calls fmap list_fmap].
    rewrite close_ticket_unfold. unfold get_ticket_by_number in Ht.
    destruct (tickets (s_db σ) !! n); [done|].
    rewrite bool_decide_eq_false_2 by (by intros [? ?]). by destruct σ.
Qed.

(** In a channel without a ticket, or with a ticket that is closed or
    resolved, the admin's close command changes nothing: the one transport
    call is the reply that says so. *)
Theorem handle_close_command_refuses (admin : Z) (db_type : db_type_t)
    (now : Z) (rename notice reply : res unit) (m : message) (chat_id : Z)
    (σ : session) :
  chat m = Some chat_id →
  (∀ t, get_ticket_info (channel_of (message_thread_id m) chat_id) (s_db σ)
        = Some t → status t ≠ Open) →
  ∃ text parse_mode,
    handle_close_command admin db_type now rename notice reply (Some m) σ
    = (Session (s_db σ)
         (s_events σ ++ [message_reply_text text None parse_mode])
         (s_pending σ), reply).
Proof.
  intros Hchat Hnot. unfold handle_close_command. rewrite Hchat.
  erewrite hbind_ok by reflexivity.
  destruct (get_ticket_info _ (s_db σ)) as [t|] eqn:Ht.
  - specialize (Hnot t eq_refl). rewrite decide_True.
    + by eexists _, _.
    + destruct (status t); auto. done.
  - by eexists _, _.
Qed.

(** On an open ticket (SQLite backend) the admin's close command leaves the
    database as [close_ticket] does, whatever the transport answers.  It
    asks for the rename of the topic, then sends the ticket's user a notice
    whose two buttons carry [reopen_<n>] and [resolve_<n>] for the ticket's
    number, then confirms to the admin; a [TelegramError] on the notice
    does not stop the confirmation. *)
Theorem handle_close_command_closes (admin now : Z)
    (rename notice reply : res unit) (m : message) (chat_id : Z)
    (t : ticket) (σ : session) :
  chat m = Some chat_id →
  get_ticket_info (channel_of (message_thread_id m) chat_id) (s_db σ)
  = Some t →
  status t = Open →
  let result :=
    handle_close_command admin LOCAL now rename notice reply (Some m) σ in
  let n := str_of_Z (ticket_number t) in
  s_db result.1 = (close_ticket now (ticket_number t) (s_db σ)).1
  ∧ s_pending result.1 = s_pending σ
  ∧ ∃ name text reopen resolved more,
      s_events result.1
      = s_events σ
        ++ Bot (edit_forum_topic admin (channel_id t) name)
        :: bot_send_message (user_id t) text
             [[Button reopen (of_string "reopen_" ++ n);
               Button resolved (of_string "resolve_" ++ n)]] Markdown
        :: more
      ∧ if decide (fatal notice)
        then more = [] ∧ result.2 = notice
        else (∃ confirmation,
                more = [message_reply_text confirmation None Markdown])
             ∧ result.2 = reply.
Proof.
  intros Hchat Ht Hst. cbv zeta. unfold handle_close_command.
  rewrite Hchat. erewrite hbind_ok by reflexivity. rewrite Ht.
  rewrite decide_False by (rewrite Hst; intros [?|?]; done).
  destruct (manager_close admin now rename (ticket_number t) σ)
    as (evs & Hm & Hevs).
  apply get_ticket_by_channel_Some in Ht as [Hin _].
  rewrite (get_ticket_by_number_of_select t (s_db σ) Hin) in Hm, Hevs.
  destruct Hevs as [name ->].
  rewrite bool_decide_eq_true_2 in Hm by (by eexists).
  erewrite hbind_ok by exact Hm.
  unfold catch_TelegramError, perform, hret, hbind.
  cbn [s_db s_events s_pending].
  destruct notice as [[]|[|e|]]; cbn [fst snd s_db s_events s_pending fatal];
    (split; [done|]); (split; [done|]);
    eexists _, _, _, _, _; rewrite <- ?app_assoc; cbn [app];
    (split; [reflexivity|]).
  - rewrite decide_False by tauto. split; [by eexists|done].
  - rewrite decide_True by done. done.
  - rewrite decide_False by tauto. split; [by eexists|done].
  - rewrite decide_True by done. done.
Qed.

(** ** The buttons *)

Lemma pretty_N_go_chars (x : N) (s : string) :
  Forall decimal_char (of_string s) →
  Forall decimal_char (of_string (pretty_N_go x s)).
Proof.
  revert s. induction (N.lt_wf_0 x) as [x _ IH]; intros s Hs.
  assert (x = 0 ∨ 0 < x)%N as [->|Hpos] by lia.
  - by rewrite pretty_N_go_0.
  - rewrite pretty_N_go_step by done. apply IH; [by apply N.div_lt|].
    unfold of_string. simpl. constructor; [|exact Hs].
    unfold decimal_char, pretty_N_char.
    repeat case_match; vm_compute; right; split; discriminate.
Qed.

Lemma str_of_Z_chars (z : Z) : Forall decimal_char (str_of_Z z).
Proof.
  assert (∀ p : positive, Forall decimal_char (of_string (pretty p))) as Hpos.
  { intros p. unfold pretty, pretty_positive, pretty, pretty_N.
    case_decide; [done|]. apply pretty_N_go_chars. constructor. }
  unfold str_of_Z, pretty, pretty_Z. destruct z as [|p|p].
  - change (Forall decimal_char [48%N]).
    constructor; [right; lia|constructor].
  - apply Hpos.
  - unfold of_string. simpl. constructor; [by left|]. apply Hpos.
Qed.

Lemma last_segment_from_plain (acc d : str) :
  Forall (fun c => c ≠ 95%N) d → last_segment_from acc d = acc ++ d.
Proof.
  intros Hd. revert acc. induction Hd as [|c d Hc _ IH]; intros acc; simpl.
  - by rewrite app_nil_r.
  - rewrite (proj2 (N.eqb_neq c 95) Hc). rewrite IH. by rewrite <- app_assoc.
Qed.

Lemma last_segment_from_app (acc p d : str) :
  Forall (fun c => c ≠ 95%N) d →
  last_segment_from acc (p ++ 95%N :: d) = d.
Proof.
  intros Hd. revert acc. induction p as [|c p IH]; intros acc; simpl.
  - by rewrite last_segment_from_plain.
  - destruct (c =? 95)%N; apply IH.
Qed.

(** The number a button carries is the number the handler reads back. *)
Lemma last_segment_number (p : str) (z : Z) :
  last_segment (p ++ 95%N :: str_of_Z z) = str_of_Z z.
Proof.
  apply last_segment_from_app. eapply Forall_impl; [apply str_of_Z_chars|].
  intros c [-> | [? ?]]; [done|]. intros ->. done.
Qed.

Lemma catch_Exception_ok {A} (m h : H A) (σ σ' : session) (a : A) :
  m σ = (σ', Ok a) → catch_Exception m h σ = (σ', Ok a).
Proof. unfold catch_Exception. by intros ->. Qed.

Lemma update_db_eq {A} (f : store → store * A) (σ : session) :
  update_db f σ
  = (Session (f (s_db σ)).1 (s_events σ) (s_pending σ), Ok (f (s_db σ)).2).
Proof. unfold update_db. by destruct (f (s_db σ)). Qed.

Lemma manager_create admin now topic delivery uid uname msg (σ : session) :
  let r := create_ticket_channel admin now topic delivery uid uname msg
             (World (s_db σ) []) in
  manager (fun w =>
             let (w', info) :=
               create_ticket_channel admin now topic delivery uid uname msg w in
             (w', Ok info)) σ
  = (Session (db r.1) (s_events σ ++ (Bot <$> calls r.1)) (s_pending σ),
     Ok r.2).
Proof.
  cbv zeta. unfold manager.
  by destruct (create_ticket_channel admin now topic delivery uid uname msg
                 (World (s_db σ) [])).
Qed.

Lemma rename_topic_spec (admin : Z) (label : str) (n : Z) (t : ticket)
    (rename : res unit) (σ : session) :
  ∃ name,
    rename_topic admin label n t rename σ
    = (Session (s_db σ)
         (s_events σ ++ [Bot (edit_forum_topic admin (channel_id t) name)])
         (s_pending σ), Ok tt).
Proof.
  unfold rename_topic, catch_Exception, catch_TelegramError, perform, hret.
  eexists. by destruct rename as [[]|[]].
Qed.

(** What pressing a button does to the database, on the SQLite backend,
    once the query is answered: a [user_close_], [reopen_] or [resolve_]
    button with a number [int] reads as [n] leaves the database as
    [close_ticket], [reopen_ticket] or [resolve_ticket] of [n] leaves it. *)
Lemma button_pressed (admin now : Z) (int : str → option Z) (topic : res Z)
    (delivery rename edited : res unit) (u : user) (data : str) (n : Z)
    (σ : session) :
  data ≠ of_string "create_ticket" →
  int (last_segment data) = Some n →
  let result :=
    handle_callback_query admin LOCAL int now (Ok tt) topic delivery rename
      edited (Some (CallbackQuery (Some data) u)) σ in
  s_pending result.1 = s_pending σ
  ∧ s_db result.1
    = if startswith (of_string "user_close_") data
      then (close_ticket now n (s_db σ)).1
      else if startswith (of_string "reopen_") data
      then (reopen_ticket n (s_db σ)).1
      else if startswith (of_string "resolve_") data
      then (resolve_ticket now n (s_db σ)).1
      else s_db σ.
Proof.
  intros Hne Hint. cbv zeta. unfold handle_callback_query.
  erewrite hbind_ok by reflexivity. cbn [cq_data].
  rewrite decide_False by done. rewrite Hint.
  set (σ1 := Session (s_db σ) (s_events σ ++ [query_answer]) (s_pending σ)).
  destruct (startswith (of_string "user_close_") data).
  { destruct (manager_close admin now rename n σ1) as (evs & Hm & _).
    erewrite hbind_ok;
      [|apply catch_Exception_ok; erewrite hbind_ok by exact Hm; reflexivity].
    by destruct (bool_decide _). }
  destruct (startswith (of_string "reopen_") data).
  { erewrite hbind_ok by apply update_db_eq. subst σ1. cbn [s_db s_events s_pending].
    destruct (reopen_ticket n (s_db σ)) as [s' [|]]; cbn [fst snd]; [|done].
    erewrite hbind_ok by reflexivity. cbn [s_db].
    destruct (get_ticket_by_number n s') as [t|].
    - edestruct rename_topic_spec as [name Hr].
      erewrite hbind_ok by exact Hr. done.
    - erewrite hbind_ok by reflexivity. done. }
  destruct (startswith (of_string "resolve_") data).
  { erewrite hbind_ok by apply update_db_eq. subst σ1. cbn [s_db s_events s_pending].
    destruct (resolve_ticket now n (s_db σ)) as [s' [|]]; cbn [fst snd]; [|done].
    erewrite hbind_ok by reflexivity. cbn [s_db].
    destruct (get_ticket_by_number n s') as [t|].
    - edestruct rename_topic_spec as [name Hr].
      erewrite hbind_ok by exact Hr. done.
    - erewrite hbind_ok by reflexivity. done. }
  by case_decide.
Qed.

Lemma startswith_app (p d : str) : startswith p (p ++ d) = true.
Proof.
  induction p as [|c p IH]; [done|]. simpl.
  by rewrite bool_decide_eq_true_2, IH.
Qed.

(** The buttons the handlers attach to their messages carry the ticket's
    number in decimal after [user_close_], [reopen_] or [resolve_].
    Provided [int] reads that decimal back, pressing such a button (SQLite
    backend, query answered) leaves the database exactly as [close_ticket],
    [reopen_ticket] or [resolve_ticket] of that number does, whoever
    presses it and whatever the ticket's status, and leaves the pending
    messages alone. *)
Theorem buttons_act_on_their_ticket (admin now : Z) (int : str → option Z)
    (topic : res Z) (delivery rename edited : res unit) (u : user) (n : Z)
    (σ : session) :
  int (str_of_Z n) = Some n →
  let press prefix :=
    (handle_callback_query admin LOCAL int now (Ok tt) topic delivery rename
       edited (Some (CallbackQuery (Some (prefix ++ str_of_Z n)) u)) σ).1 in
  s_db (press (of_string "user_close_")) = (close_ticket now n (s_db σ)).1
  ∧ s_db (press (of_string "reopen_")) = (reopen_ticket n (s_db σ)).1
  ∧ s_db (press (of_string "resolve_")) = (resolve_ticket now n (s_db σ)).1
  ∧ s_pending (press (of_string "user_close_")) = s_pending σ
  ∧ s_pending (press (of_string "reopen_")) = s_pending σ
  ∧ s_pending (press (of_string "resolve_")) = s_pending σ.
Proof.
  intros Hint. cbv zeta.
  assert (∀ p, last_segment ((p ++ [95%N]) ++ str_of_Z n) = str_of_Z n)
    as Hlast.
  { intros p. rewrite <- app_assoc. apply last_segment_number. }
  destruct (button_pressed admin now int topic delivery rename edited u
              (of_string "user_close_" ++ str_of_Z n) n σ) as [Hp1 Hd1].
  { intros Heq. vm_compute in Heq. discriminate. }
  { change (of_string "user_close_") with (of_string "user_close" ++ [95%N]).
    by rewrite Hlast. }
  destruct (button_pressed admin now int topic delivery rename edited u
              (of_string "reopen_" ++ str_of_Z n) n σ) as [Hp2 Hd2].
  { intros Heq. vm_compute in Heq. discriminate. }
  { change (of_string "reopen_") with (of_string "reopen" ++ [95%N]).
    by rewrite Hlast. }
  destruct (button_pressed admin now int topic delivery rename edited u
              (of_string "resolve_" ++ str_of_Z n) n σ) as [Hp3 Hd3].
  { intros Heq. vm_compute in Heq. discriminate. }
  { change (of_string "resolve_") with (of_string "resolve" ++ [95%N]).
    by rewrite Hlast. }
  rewrite startswith_app in Hd1.
  assert (startswith (of_string "user_close_")
            (of_string "reopen_" ++ str_of_Z n) = false) as Hf1 by done.
  assert (startswith (of_string "user_close_")
            (of_string "resolve_" ++ str_of_Z n) = false) as Hf2 by done.
  assert (startswith (of_string "reopen_")
            (of_string "resolve_" ++ str_of_Z n) = false) as Hf3 by done.
  rewrite Hf1, startswith_app in Hd2.
  rewrite Hf2, Hf3, startswith_app in Hd3.
  done.
Qed.

(** The [create_ticket] button (query answered).  When the presser has no
    open ticket and a pending message that is not empty, the database is
    left as [create_ticket_channel] leaves it with that message as the first
    message, and the pending message is removed, also when no ticket could
    be created.  In every other case, database and pending messages stay as
    they are. *)
Theorem create_button (admin : Z) (db_type : db_type_t)
    (int : str → option Z) (now : Z) (topic : res Z)
    (delivery rename edited : res unit) (u : user) (σ : session) :
  let result :=
    (handle_callback_query admin db_type int now (Ok tt) topic delivery
       rename edited
       (Some (CallbackQuery (Some (of_string "create_ticket")) u)) σ).1 in
  let pending := default [] (s_pending σ !! u_id u) in
  if decide (get_user_ticket (u_id u) (s_db σ) = None ∧ pending ≠ [])
  then s_db result
       = db (create_ticket_channel admin now topic delivery (u_id u)
               (u_username u) pending (World (s_db σ) [])).1
       ∧ s_pending result = delete (u_id u) (s_pending σ)
  else s_db result = s_db σ ∧ s_pending result = s_pending σ.
Proof.
  cbv zeta. unfold handle_callback_query.
  erewrite hbind_ok by reflexivity. cbn [cq_data cq_from_user].
  rewrite (decide_True (P := of_string "create_ticket"
                             = of_string "create_ticket")) by done.
  erewrite hbind_ok by reflexivity. cbn [s_db].
  destruct (get_user_ticket (u_id u) (s_db σ)) as [t|] eqn:Hg.
  { rewrite decide_False by (by intros [? _]). done. }
  erewrite hbind_ok by reflexivity. cbn [s_pending].
  destruct (default [] (s_pending σ !! u_id u)) as [|c p] eqn:Hp.
  { rewrite decide_False by (by intros [_ ?]). done. }
  rewrite decide_True by done. cbn [nonempty].
  erewrite hbind_ok by apply manager_create. cbn [s_db s_events s_pending].
  erewrite hbind_ok by reflexivity.
  by destruct (create_ticket_channel admin now topic delivery (u_id u)
                 (u_username u) (c :: p) (World (s_db σ) [])) as [w' [info|]].
Qed.

(** A button whose data is not [create_ticket] and either has none of the
    three prefixes (as [cancel] has) or a number [int] rejects changes
    neither the database nor the pending messages, on either backend and
    whatever the transport answers. *)
Theorem other_buttons (admin : Z) (db_type : db_type_t)
    (int : str → option Z) (now : Z) (answered : res unit) (topic : res Z)
    (delivery rename edited : res unit) (u : user) (data : str)
    (σ : session) :
  data ≠ of_string "create_ticket" →
  int (last_segment data) = None
  ∨ (startswith (of_string "user_close_") data = false
     ∧ startswith (of_string "reopen_") data = false
     ∧ startswith (of_string "resolve_") data = false) →
  let result :=
    (handle_callback_query admin db_type int now answered topic delivery
       rename edited (Some (CallbackQuery (Some data) u)) σ).1 in
  s_db result = s_db σ ∧ s_pending result = s_pending σ.
Proof.
  intros Hne Hcase. cbv zeta. unfold handle_callback_query.
  destruct answered as [[]|e];
    [erewrite hbind_ok by reflexivity|by erewrite hbind_raise by reflexivity].
  cbn [cq_data]. rewrite decide_False by done.
  destruct Hcase as [-> | (-> & -> & ->)].
  - repeat (destruct (startswith _ data); [done|]). by case_decide.
  - by case_decide.
Qed.

(** ** The handlers and the invariants of the store *)

Lemma run_app (ops1 ops2 : list op) (s : store) :
  run (ops1 ++ ops2) s = run ops2 (run ops1 s).
Proof. revert s. induction ops1 as [|o ops1 IH]; intros s; simpl; auto. Qed.

Lemma writes_hret {A} (a : A) : writes_as_ops (hret a).
Proof. intros σ. by exists []. Qed.

Lemma writes_raise {A} (e : exn) :
  writes_as_ops (fun σ => (σ, @Raise A e)).
Proof. intros σ. by exists []. Qed.

Lemma writes_perform (e : event) (a : res unit) : writes_as_ops (perform e a).
Proof. intros σ. by exists []. Qed.

Lemma writes_read {A} (f : store → A) : writes_as_ops (read f).
Proof. intros σ. by exists []. Qed.

Lemma writes_set_pending uid text : writes_as_ops (set_pending uid text).
Proof. intros σ. by exists []. Qed.

Lemma writes_get_pending uid : writes_as_ops (get_pending uid).
Proof. intros σ. by exists []. Qed.

Lemma writes_pop_pending uid : writes_as_ops (pop_pending uid).
Proof. intros σ. by exists []. Qed.

Lemma writes_hbind {A B} (m : H A) (k : A → H B) :
  writes_as_ops m → (∀ a, writes_as_ops (k a)) → writes_as_ops (hbind m k).
Proof.
  intros Hm Hk σ. unfold hbind. destruct (Hm σ) as [ops1 H1].
  destruct (m σ) as [σ' [a|e]]; simpl in *.
  - destruct (Hk a σ') as [ops2 H2]. exists (ops1 ++ ops2).
    by rewrite run_app, <- H1.
  - by exists ops1.
Qed.

Lemma writes_catch_TelegramError {A} (m h : H A) :
  writes_as_ops m → writes_as_ops h → writes_as_ops (catch_TelegramError m h).
Proof.
  intros Hm Hh σ. unfold catch_TelegramError. destruct (Hm σ) as [ops1 H1].
  destruct (m σ) as [σ' [a|[|msg|]]]; simpl in *; try by exists ops1.
  destruct (Hh σ') as [ops2 H2]. exists (ops1 ++ ops2).
  by rewrite run_app, <- H1.
Qed.

Lemma writes_catch_Exception {A} (m h : H A) :
  writes_as_ops m → writes_as_ops h → writes_as_ops (catch_Exception m h).
Proof.
  intros Hm Hh σ. unfold catch_Exception. destruct (Hm σ) as [ops1 H1].
  destruct (m σ) as [σ' [a|e]]; simpl in *; [by exists ops1|].
  destruct (Hh σ') as [ops2 H2]. exists (ops1 ++ ops2).
  by rewrite run_app, <- H1.
Qed.

Lemma writes_reopen (n : Z) : writes_as_ops (update_db (reopen_ticket n)).
Proof. intros σ. exists [OpReopen n]. by rewrite update_db_eq. Qed.

Lemma writes_resolve (now n : Z) :
  writes_as_ops (update_db (resolve_ticket now n)).
Proof. intros σ. exists [OpResolve now n]. by rewrite update_db_eq. Qed.

Lemma writes_close admin db_type now rename n :
  writes_as_ops (manager (close_ticket_channel admin db_type now rename n)).
Proof.
  intros σ. destruct db_type.
  - destruct (manager_close admin now rename n σ) as (evs & -> & _).
    by exists [OpClose now n].
  - exists []. unfold manager, close_ticket_channel, load_ticket, bind, ret.
    cbn [db]. by destruct (get_ticket_by_number n (s_db σ)).
Qed.

Lemma writes_create admin now topic delivery uid uname msg :
  writes_as_ops
    (manager (fun w =>
                let (w', info) :=
                  create_ticket_channel admin now topic delivery uid uname
                    msg w in
                (w', Ok info))).
Proof.
  intros σ. rewrite manager_create. cbn [fst s_db].
  apply (create_ticket_channel_as_ops admin now topic delivery uid uname msg
           (World (s_db σ) [])).
Qed.

Lemma writes_rename_topic admin label n t rename :
  writes_as_ops (rename_topic admin label n t rename).
Proof.
  intros σ. destruct (rename_topic_spec admin label n t rename σ) as [? ->].
  by exists [].
Qed.

Ltac writes :=
  repeat first
    [ apply writes_hbind; [|intros ?]
    | apply writes_catch_TelegramError
    | apply writes_catch_Exception
    | apply writes_hret
    | apply writes_raise
    | apply writes_perform
    | apply writes_read
    | apply writes_set_pending
    | apply writes_get_pending
    | apply writes_pop_pending
    | apply writes_reopen
    | apply writes_resolve
    | apply writes_close
    | apply writes_create
    | apply writes_rename_topic
    | match goal with
      | |- writes_as_ops (match ?x with _ => _ end) => destruct x
      end ].

Lemma handle_callback_query_writes admin db_type int now answered topic
    delivery rename edited update_callback_query :
  writes_as_ops
    (handle_callback_query admin db_type int now answered topic delivery
       rename edited update_callback_query).
Proof. unfold handle_callback_query. writes. Qed.

Lemma handle_close_command_writes admin db_type now rename notice reply
    update_message :
  writes_as_ops
    (handle_close_command admin db_type now rename notice reply
       update_message).
Proof. unfold handle_close_command. writes. Qed.

(** Whatever button is pressed and whatever close command arrives, on
    either backend and whatever the transport answers, the handlers leave
    the store with [closed_at] coupled to the status, with distinct
    channels and with no ticket number above the counter, when it had
    these. *)
Theorem handlers_keep_store (admin : Z) (db_type : db_type_t)
    (int : str → option Z) (now : Z) (answered : res unit) (topic : res Z)
    (delivery rename notice reply edited : res unit)
    (update_callback_query : option callback_query)
    (update_message : option message) (σ : session) :
  let after_button :=
    s_db (handle_callback_query admin db_type int now answered topic
            delivery rename edited update_callback_query σ).1 in
  let after_close :=
    s_db (handle_close_command admin db_type now rename notice reply
            update_message σ).1 in
  (store_coupled (s_db σ) →
   store_coupled after_button ∧ store_coupled after_close)
  ∧ (unique_channels (s_db σ) →
     unique_channels after_button ∧ unique_channels after_close)
  ∧ (numbers_bounded (s_db σ) →
     numbers_bounded after_button ∧ numbers_bounded after_close).
Proof.
  cbv zeta.
  destruct (handle_callback_query_writes admin db_type int now answered topic
              delivery rename edited update_callback_query σ) as [ops1 ->].
  destruct (handle_close_command_writes admin db_type now rename notice reply
              update_message σ) as [ops2 ->].
  split_and!; intros Hs; split.
  - by apply run_coupled.
  - by apply run_coupled.
  - by apply run_unique_channels.
  - by apply run_unique_channels.
  - by apply run_numbers_bounded.
  - by apply run_numbers_bounded.
Qed.

(** ** The user's close command *)

(** The user's close command closes nothing by itself: database and
    pending messages stay as they are, and the one transport call is a
    reply.  For a user with an open ticket the reply carries the buttons
    [resolve_<n>] and [user_close_<n>] for that ticket's number and a
    [cancel] button; for a user without one it carries no button. *)
Theorem handle_user_close_command_offers (reply : res unit)
    (m : private_message) (u : user) (σ : session) :
  pm_from_user m = Some u →
  let result := handle_user_close_command reply (Some m) σ in
  s_db result.1 = s_db σ ∧ s_pending result.1 = s_pending σ
  ∧ result.2 = reply
  ∧ match get_user_ticket (u_id u) (s_db σ) with
    | Some t =>
      let n := str_of_Z (ticket_number t) in
      ∃ text resolve close cancel,
        s_events result.1
        = s_events σ
          ++ [message_reply_text text
                (Some [[Button resolve (of_string "resolve_" ++ n);
                        Button close (of_string "user_close_" ++ n)];
                       [Button cancel (of_string "cancel")]])
                Markdown]
    | None =>
      ∃ text, s_events result.1
              = s_events σ ++ [message_reply_text text None None]
    end.
Proof.
  intros Hu. cbv zeta. unfold handle_user_close_command. rewrite Hu.
  erewrite hbind_ok by reflexivity.
  destruct (get_user_ticket (u_id u) (s_db σ)) as [t|];
    unfold perform; cbn [fst snd s_db s_events s_pending];
    split_and!; try done.
  - by eexists _, _, _, _.
  - by eexists.
Qed.

(** ** The further properties at work *)

Lemma tickets_never_deleted_witness :
  ∃ t', get_ticket_by_number 1 (run [OpClose 30 1; OpReopen 1] scenario_resolved)
        = Some t'
        ∧ user_id t' = 7 ∧ created_at t' = 10.
Proof.
  destruct (tickets_never_deleted [OpClose 30 1; OpReopen 1] scenario_resolved
              1 (Ticket 1 7 (Some (of_string "bob")) 41 Resolved 10 (Some 20)))
    as (t' & Ht' & _ & Hu & _ & Hc).
  - vm_compute. reflexivity.
  - exists t'. split_and!; assumption.
Defined.

Lemma channels_stay_unique_witness :
  unique_channels scenario_open
  ∧ unique_channels
      (run [OpCreate 30 8 None 0; OpUpdateChannel 2 41] scenario_open).
Proof.
  assert (unique_channels scenario_open) as Hu
    by (apply (bool_decide_unpack _); vm_compute; exact I).
  split; [exact Hu|].
  exact (channels_stay_unique [OpCreate 30 8 None 0; OpUpdateChannel 2 41]
           scenario_open Hu).
Defined.

Lemma numbers_stay_bounded_witness :
  numbers_bounded init_database
  ∧ numbers_bounded (run [OpNext; OpCreate 10 7 None 0] init_database).
Proof.
  assert (numbers_bounded init_database) as Hb
    by (apply (bool_decide_unpack _); vm_compute; exact I).
  split; [exact Hb|].
  exact (proj1 (numbers_stay_bounded [OpNext; OpCreate 10 7 None 0]
                  init_database Hb)).
Defined.

Lemma one_open_kept_witness :
  one_open_per_user scenario_closed_and_open
  ∧ one_open_per_user
      (run [OpResolve 40 1; OpClose 50 2] scenario_closed_and_open).
Proof.
  assert (one_open_per_user scenario_closed_and_open) as Ho
    by (apply (bool_decide_unpack _); vm_compute; exact I).
  split; [exact Ho|].
  exact (one_open_kept [OpResolve 40 1; OpClose 50 2] scenario_closed_and_open
           eq_refl Ho).
Defined.

Lemma create_ticket_channel_keeps_one_open_witness :
  one_open_per_user
    (db (create_ticket_channel admin_group 6 (Ok 42) (Ok tt) 8 None
           (of_string "hello") scenario_fallback).1).
Proof.
  apply (create_ticket_channel_keeps_one_open admin_group 6 (Ok 42) (Ok tt) 8
           None (of_string "hello") scenario_fallback).
  apply (bool_decide_unpack _). vm_compute. exact I.
Defined.

Lemma reopen_ticket_second_open_witness :
  (reopen_ticket 1 scenario_closed_and_open).2 = true
  ∧ ¬ one_open_per_user (reopen_ticket 1 scenario_closed_and_open).1.
Proof.
  destruct (reopen_ticket_second_open 1 2 scenario_closed_and_open
              (Ticket 1 7 (Some (of_string "bob")) 41 Closed 10 (Some 20))
              (Ticket 2 7 (Some (of_string "bob")) 42 Open 30 None))
    as (Hr & _ & _ & Hno);
    [vm_compute; reflexivity|reflexivity|vm_compute; reflexivity
    |reflexivity|reflexivity|].
  split; assumption.
Defined.

Lemma create_ticket_channel_routes_witness :
  ∃ t, get_user_ticket 7 (db scenario_fallback) = Some t
       ∧ get_ticket_info admin_group (db scenario_fallback) = Some t
       ∧ ticket_number t = 1.
Proof.
  destruct (create_ticket_channel_routes admin_group 5 not_a_forum (Ok tt) 7
              (Some (of_string "bob")) (of_string "help me")
              (World init_database []) scenario_fallback
              (inr (TicketInfo 1 7 (Some (of_string "bob")) admin_group
                               (of_string "open"))))
    as (t & Hu & Hc & Hn & _).
  - apply (bool_decide_unpack _). vm_compute. exact I.
  - vm_compute. reflexivity.
  - exists t. split_and!; assumption.
Defined.

Lemma handle_admin_message_skips_witness :
  handle_admin_message (fun e => e) (Ok tt) (Ok tt)
    (Some (Message (Some admin_group) (Some (of_string "/close")) (Some 41)))
    (World scenario_open [])
  = (World scenario_open [], Ok tt).
Proof.
  apply (handle_admin_message_skips (fun e => e) (Ok tt) (Ok tt)
           (Message (Some admin_group) (Some (of_string "/close")) (Some 41))
           (World scenario_open [])).
  left. vm_compute. reflexivity.
Defined.

Lemma handle_admin_message_delivery_witness :
  handle_admin_message (fun e => e)
    (Raise (TelegramError (of_string "Forbidden: bot was blocked by the user")))
    (Ok tt)
    (Some (Message (Some admin_group) (Some (of_string "any news?")) (Some 41)))
    (World scenario_open [])
  = (World scenario_open
       [send_message 7 (of_string "any news?") None
          (Some (of_string "Markdown"));
        reply_text
          (warning
           ++ of_string " Could not deliver message. User has blocked the bot.")],
     Ok tt).
Proof.
  rewrite (handle_admin_message_delivery (fun e => e)
             (Raise (TelegramError
                       (of_string "Forbidden: bot was blocked by the user")))
             (Ok tt)
             (Message (Some admin_group) (Some (of_string "any news?"))
                      (Some 41))
             admin_group (of_string "any news?")
             (Ticket 1 7 (Some (of_string "bob")) 41 Open 10 None)
             (World scenario_open []));
    reflexivity.
Defined.

Lemma handle_user_message_spec_witness :
  s_db (handle_user_message admin_group (Ok tt) (Ok tt)
          (Some (PrivateMessage (Some bob) (Some (of_string "one more thing"))))
          (Session scenario_open [] ∅)).1
  = scenario_open.
Proof.
  exact (proj1 (handle_user_message_spec admin_group (Ok tt) (Ok tt)
                  (PrivateMessage (Some bob)
                     (Some (of_string "one more thing")))
                  bob (Session scenario_open [] ∅) eq_refl)).
Defined.

Lemma handle_close_command_refuses_witness :
  ∃ text parse_mode,
    handle_close_command admin_group LOCAL 30 (Ok tt) (Ok tt) (Ok tt)
      (Some (Message (Some admin_group) (Some (of_string "/close")) (Some 41)))
      (Session scenario_resolved [] ∅)
    = (Session scenario_resolved [message_reply_text text None parse_mode] ∅,
       Ok tt).
Proof.
  apply (handle_close_command_refuses admin_group LOCAL 30 (Ok tt) (Ok tt)
           (Ok tt)
           (Message (Some admin_group) (Some (of_string "/close")) (Some 41))
           admin_group (Session scenario_resolved [] ∅) eq_refl).
  intros t. vm_compute. intros [= <-]. discriminate.
Defined.

Lemma handle_close_command_closes_witness :
  s_db (handle_close_command admin_group LOCAL 30 (Ok tt) (Ok tt) (Ok tt)
          (Some (Message (Some admin_group) (Some (of_string "/close"))
                         (Some 41)))
          (Session scenario_open [] ∅)).1
  = (close_ticket 30 1 scenario_open).1.
Proof.
  refine (proj1 (handle_close_command_closes admin_group 30 (Ok tt) (Ok tt)
                   (Ok tt)
                   (Message (Some admin_group) (Some (of_string "/close"))
                            (Some 41))
                   admin_group
                   (Ticket 1 7 (Some (of_string "bob")) 41 Open 10 None)
                   (Session scenario_open [] ∅) eq_refl _ eq_refl)).
  vm_compute. reflexivity.
Defined.

Lemma buttons_act_on_their_ticket_witness :
  s_db (handle_callback_query admin_group LOCAL int_decimal 30 (Ok tt)
          (Ok 42) (Ok tt) (Ok tt) (Ok tt)
          (Some (CallbackQuery (Some (of_string "user_close_" ++ str_of_Z 1))
                               bob))
          (Session scenario_resolved [] ∅)).1
  = (close_ticket 30 1 scenario_resolved).1.
Proof.
  refine (proj1 (buttons_act_on_their_ticket admin_group 30 int_decimal
                   (Ok 42) (Ok tt) (Ok tt) (Ok tt) bob 1
                   (Session scenario_resolved [] ∅) _)).
  vm_compute. reflexivity.
Defined.

Lemma other_buttons_witness :
  s_db (handle_callback_query admin_group LOCAL int_decimal 30 (Ok tt)
          (Ok 42) (Ok tt) (Ok tt) (Ok tt)
          (Some (CallbackQuery (Some (of_string "cancel")) bob))
          (Session scenario_open [] ∅)).1
  = scenario_open.
Proof.
  refine (proj1 (other_buttons admin_group LOCAL int_decimal 30 (Ok tt)
                   (Ok 42) (Ok tt) (Ok tt) (Ok tt) bob (of_string "cancel")
                   (Session scenario_open [] ∅) _ _)).
  - vm_compute. discriminate.
  - right. vm_compute. done.
Defined.

Lemma handle_user_close_command_offers_witness :
  s_db (handle_user_close_command (Ok tt)
          (Some (PrivateMessage (Some bob) (Some (of_string "/close"))))
          (Session scenario_open [] ∅)).1
  = scenario_open.
Proof.
  exact (proj1 (handle_user_close_command_offers (Ok tt)
                  (PrivateMessage (Some bob) (Some (of_string "/close")))
                  bob (Session scenario_open [] ∅) eq_refl)).
Defined.

(** The user-side close button on the resolved ticket of [scenario_resolved],
    end to end. *)
Example user_close_button_on_resolved :
  status <$> get_ticket_by_number 1
    (s_db (handle_callback_query admin_group LOCAL int_decimal 30 (Ok tt)
             (Ok 42) (Ok tt) (Ok tt) (Ok tt)
             (Some (CallbackQuery (Some (of_string "user_close_1")) bob))
             (Session scenario_resolved [] ∅)).1)
  = Some Closed.
Proof. vm_compute. reflexivity. Qed.
